(** * guillemot: a shallow embedding of the refinement tools, the OPTIMADE
    query layer, the plotting zoom logic, the image loader and the
    conversation history, with their specification.

    Strings are ASCII strings ([String.string]); Python's [str] operations
    used by the code are written out below on them.  Paths follow
    [posixpath].  Floating-point quantities of the plotting code are
    modelled as exact rationals ([Q]). *)

From Stdlib Require Import String Ascii List ZArith QArith Qminmax Qabs Bool Lia.
Import ListNotations.
Open Scope nat_scope.
Open Scope list_scope.
Open Scope string_scope.

(** ** Python exceptions that the embedded code can raise. *)
Inductive py_exn : Type :=
| RuntimeError (msg : string)
| ModelRetry (msg : string)          (* pydantic_ai.ModelRetry *)
| ValueError (msg : string)
| IndexError (msg : string)
| UnboundLocalError (msg : string)
| OSError (msg : string).

(** A computation that returns a value or raises. *)
Definition py (A : Type) : Type := (py_exn + A)%type.

(** ** Python [str] operations, on ASCII strings. *)
Module PyStr.

Definition chr (n : nat) : ascii := ascii_of_nat n.

(** The one-character string made of a double quote. *)
Definition dq : string := String (chr 34) EmptyString.

(** [needle in hay] *)
Fixpoint contains (needle hay : string) : bool :=
  prefix needle hay ||
  match hay with
  | EmptyString => false
  | String _ t => contains needle t
  end.

(** [s.startswith(p)] *)
Definition startswith (s p : string) : bool := prefix p s.

(** [s.replace(old, new)] for a non-empty [old]: left to right,
    non-overlapping. *)
Fixpoint replace_fuel (fuel : nat) (old new s : string) : string :=
  match fuel with
  | O => s
  | S f =>
      if prefix old s
      then new ++ replace_fuel f old new (substring (String.length old) (String.length s) s)
      else match s with
           | EmptyString => EmptyString
           | String c t => String c (replace_fuel f old new t)
           end
  end.

Definition replace (s old new : string) : string :=
  replace_fuel (S (String.length s)) old new s.

(** [sep.join(xs)] *)
Definition join (sep : string) (xs : list string) : string :=
  String.concat sep xs.

Definition is_digit (c : ascii) : bool :=
  let n := nat_of_ascii c in (Nat.leb 48 n) && (Nat.leb n 57).
Definition is_upper (c : ascii) : bool :=
  let n := nat_of_ascii c in (Nat.leb 65 n) && (Nat.leb n 90).
Definition is_lower (c : ascii) : bool :=
  let n := nat_of_ascii c in (Nat.leb 97 n) && (Nat.leb n 122).

(** [s.lower()] *)
Definition lower_char (c : ascii) : ascii :=
  if is_upper c then chr (nat_of_ascii c + 32) else c.
Definition lower (s : string) : string :=
  string_of_list_ascii (map lower_char (list_ascii_of_string s)).

(** The ASCII characters [str.strip()] and [int()] treat as whitespace:
    space, \t \n \v \f \r and \x1c .. \x1f. *)
Definition is_space (c : ascii) : bool :=
  let n := nat_of_ascii c in
  (Nat.eqb n 32) || ((Nat.leb 9 n) && (Nat.leb n 13)) || ((Nat.leb 28 n) && (Nat.leb n 31)).

(** The ASCII line boundaries of [str.splitlines()]:
    \n \v \f \r and \x1c \x1d \x1e ([\r\n] counts as one). *)
Definition is_line_break (c : ascii) : bool :=
  let n := nat_of_ascii c in
  ((Nat.leb 10 n) && (Nat.leb n 13)) || ((Nat.leb 28 n) && (Nat.leb n 30)).

Fixpoint splitlines_aux (l : list ascii) (cur : list ascii)
  : list (list ascii) :=
  match l with
  | [] => match cur with [] => [] | _ => [rev cur] end
  | c :: t =>
      if Ascii.eqb c (chr 13) then
        match t with
        | d :: t' =>
            if Ascii.eqb d (chr 10)
            then rev cur :: splitlines_aux t' []
            else rev cur :: splitlines_aux t []
        | [] => [rev cur]
        end
      else if is_line_break c then rev cur :: splitlines_aux t []
      else splitlines_aux t (c :: cur)
  end.

(** [s.splitlines()] *)
Definition splitlines (s : string) : list string :=
  map string_of_list_ascii (splitlines_aux (list_ascii_of_string s) []).

(** [str(n)] for a natural number. *)
Fixpoint digits_rev (fuel n : nat) : list ascii :=
  match fuel with
  | O => []
  | S f =>
      chr (48 + n mod 10) ::
      (if Nat.eqb (n / 10) 0 then [] else digits_rev f (n / 10))
  end.

Definition str_nat (n : nat) : string :=
  string_of_list_ascii (rev (digits_rev (S n) n)).

(** [str(z)] for a Python [int]. *)
Definition str_int (z : Z) : string :=
  if (z <? 0)%Z then "-" ++ str_nat (Z.to_nat (Z.abs z))
  else str_nat (Z.to_nat z).

(** [int(s)] in base 10, ASCII digits: surrounding whitespace, an optional
    sign, digits with single underscores between them; [None] is the
    [ValueError]. *)
Fixpoint int_digits (l : list ascii) (acc : Z) (prev_us : bool) : option Z :=
  match l with
  | [] => if prev_us then None else Some acc
  | c :: t =>
      if is_digit c then
        int_digits t (acc * 10 + Z.of_nat (nat_of_ascii c - 48))%Z false
      else if Ascii.eqb c "_" && negb prev_us then int_digits t acc true
      else None
  end.

Definition int_unsigned (l : list ascii) : option Z :=
  match l with
  | c :: _ => if is_digit c then int_digits l 0%Z false else None
  | [] => None
  end.

Fixpoint lstrip (l : list ascii) : list ascii :=
  match l with
  | c :: t => if is_space c then lstrip t else l
  | [] => []
  end.

Definition strip (l : list ascii) : list ascii := rev (lstrip (rev (lstrip l))).

Definition py_int (s : string) : option Z :=
  match strip (list_ascii_of_string s) with
  | c :: t =>
      if Ascii.eqb c "-" then option_map Z.opp (int_unsigned t)
      else if Ascii.eqb c "+" then int_unsigned t
      else int_unsigned (c :: t)
  | [] => None
  end.

(** Python's ordering of [(str, str)] tuples. *)
Definition pair_leb (a b : string * string) : bool :=
  match String.compare (fst a) (fst b) with
  | Lt => true
  | Gt => false
  | Eq => String.leb (snd a) (snd b)
  end.

Fixpoint insert_pair (x : string * string) (l : list (string * string))
  : list (string * string) :=
  match l with
  | [] => [x]
  | y :: t => if pair_leb x y then x :: y :: t else y :: insert_pair x t
  end.

(** [sorted(xs)] *)
Fixpoint sort_pairs (l : list (string * string)) : list (string * string) :=
  match l with
  | [] => []
  | x :: t => insert_pair x (sort_pairs t)
  end.

End PyStr.

(** ** [guillemot/tools/optimade.py] *)
Module Optimade.
Import PyStr.

(** [_create_optimade_elements_filter(elements)]; an empty list makes
    [quoted_elements[0]] raise [IndexError]. *)
Definition _create_optimade_elements_filter (elements : list string)
  : py string :=
  let quoted_elements := map (fun el => dq ++ el ++ dq) elements in
  if Nat.ltb 1 (List.length elements) then
    inr ("elements HAS ALL " ++ join "," quoted_elements ++
         " AND elements LENGTH " ++ str_nat (List.length quoted_elements))
  else
    match quoted_elements with
    | q0 :: _ => inr ("elements HAS " ++ q0 ++ " AND elements LENGTH 1")
    | [] => inl (IndexError "list index out of range")
    end.

(** One step of [re.findall(r"[A-Z][a-z]?", s)] together with
    [re.split(r"[A-Z][a-z]?", s)]: the text before the first match, and
    for each match the matched symbol with the text that follows it up to
    the next match. *)
Fixpoint tokenize (l : list ascii) : list ascii * list (string * list ascii) :=
  match l with
  | [] => ([], [])
  | c :: t =>
      if is_upper c then
        match t with
        | d :: t' =>
            if is_lower d then
              let '(seg, rest) := tokenize t' in
              ([], (string_of_list_ascii [c; d], seg) :: rest)
            else
              let '(seg, rest) := tokenize t in
              ([], (string_of_list_ascii [c], seg) :: rest)
        | [] => ([], [(string_of_list_ascii [c], [])])
        end
      else
        let '(seg, rest) := tokenize t in (c :: seg, rest)
  end.

(** [re.findall(r"[A-Z][a-z]?", formula)] *)
Definition findall_elements (formula : string) : list string :=
  map fst (snd (tokenize (list_ascii_of_string formula))).

(** [re.split(r"[A-Z][a-z]?", formula)[1:]] *)
Definition split_numbers (formula : string) : list string :=
  map (fun p => string_of_list_ascii (snd p))
      (snd (tokenize (list_ascii_of_string formula))).

(** [str(int(num)) if num and str(num) != "1" else ""]; [None] is the
    [ValueError] of [int]. *)
Definition render_count (num : string) : option string :=
  if negb (String.eqb num "") && negb (String.eqb num "1")
  then option_map str_int (py_int num)
  else Some "".

Fixpoint map_option {A B} (f : A -> option B) (l : list A) : option (list B) :=
  match l with
  | [] => Some []
  | x :: t =>
      match f x, map_option f t with
      | Some y, Some ys => Some (y :: ys)
      | _, _ => None
      end
  end.

(** [_sanitize_formula(formula)] *)
Definition _sanitize_formula (formula : string) : py string :=
  let elements := findall_elements formula in
  match map_option render_count (split_numbers formula) with
  | None => inl (ValueError "invalid literal for int() with base 10")
  | Some numbers =>
      inr (String.concat ""
             (map (fun p => fst p ++ snd p)
                  (sort_pairs (combine elements numbers))))
  end.

Definition allowed_database_endpoints (database : string) : option string :=
  if String.eqb database "cod"
  then Some "https://www.crystallography.net/cod/optimade/"
  else if String.eqb database "mp"
  then Some "https://optimade.materialsproject.org"
  else if String.eqb database "oqmd"
  then Some "https://oqmd.org/optimade"
  else None.

(** Python truthiness of the optional arguments. *)
Definition truthy_str (s : option string) : bool :=
  match s with Some v => negb (String.eqb v "") | None => false end.
Definition truthy_list {A} (l : option (list A)) : bool :=
  match l with Some (_ :: _) => true | _ => false end.

(** The filter chosen by [get_optimade_cifs] (its lines up to the query). *)
Definition choose_filter (elements : option (list string))
    (formula query : option string) (database : string) : py string :=
  if truthy_str query then inr (match query with Some q => q | None => "" end)
  else if truthy_list elements then
    _create_optimade_elements_filter
      (match elements with Some es => es | None => [] end)
  else if truthy_str formula then
    if String.eqb database "cod"
    then inl (ModelRetry "Use elements rather than formula for cod search")
    else
      match _sanitize_formula (match formula with Some f => f | None => "" end) with
      | inl e => inl e
      | inr f => inr ("chemical_formula_reduced=" ++ dq ++ f ++ dq)
      end
  else inl (RuntimeError "Must provide either `elements` or `formula` or `query`.").

Section Query.
(** The records of the OPTIMADE client, their conversion
    [Structure(d).as_dict], and the client's answer
    [client.get(filter)["structures"][filter][endpoint]["data"]]. *)
Variable entry dict : Type.
Variable as_dict : entry -> dict.
Variable client_get : string -> string -> list entry.

(** A call of [get_optimade_cifs]: the queries it issued (endpoint and
    filter) and its result.  Error messages that embed the reprs of the
    arguments are abbreviated. *)
Record outcome := {
  queries : list (string * string);
  result : py (list dict)
}.

Definition get_optimade_cifs (elements : option (list string))
    (formula query : option string) (database : string) : outcome :=
  match allowed_database_endpoints database with
  | None =>
      {| queries := [];
         result := inl (RuntimeError ("Unknown database '" ++ database ++
                    "'. Must be one of 'cod', 'mp', or 'oqmd'.")) |}
  | Some endpoint =>
      match choose_filter elements formula query database with
      | inl e => {| queries := []; result := inl e |}
      | inr _filter =>
          let raw_structures := client_get endpoint _filter in
          {| queries := [(endpoint, _filter)];
             result := match raw_structures with
                       | [] => inl (RuntimeError "No structures found")
                       | _ => inr (map as_dict raw_structures)
                       end |}
      end
  end.
End Query.
Arguments queries {dict}.
Arguments result {dict}.

End Optimade.

(** ** [posixpath] *)
Module PosixPath.
Import PyStr.

Fixpoint rfind_aux (c : ascii) (l : list ascii) (i : nat) (found : option nat)
  : option nat :=
  match l with
  | [] => found
  | d :: t => rfind_aux c t (S i) (if Ascii.eqb c d then Some i else found)
  end.

Fixpoint drop_slashes (l : list ascii) : list ascii :=
  match l with
  | c :: t => if Ascii.eqb c "/" then drop_slashes t else l
  | [] => []
  end.

(** [s.rfind(c)], [None] for -1. *)
Definition rfind (c : ascii) (l : list ascii) : option nat := rfind_aux c l 0 None.

(** [os.path.splitext(p)]: the last dot after the last separator, unless
    everything between that separator and the dot is dots. *)
Definition splitext (p : string) : string * string :=
  let l := list_ascii_of_string p in
  match rfind "." l with
  | None => (p, "")
  | Some dotIndex =>
      let filenameIndex :=
        match rfind "/" l with Some s => S s | None => 0 end in
      if Nat.leb filenameIndex dotIndex &&
         existsb (fun c => negb (Ascii.eqb c "."))
                 (firstn (dotIndex - filenameIndex) (skipn filenameIndex l))
      then (string_of_list_ascii (firstn dotIndex l),
            string_of_list_ascii (skipn dotIndex l))
      else (p, "")
  end.

(** [s.endswith(q)] *)
Definition endswith (s q : string) : bool :=
  prefix (string_of_list_ascii (rev (list_ascii_of_string q)))
         (string_of_list_ascii (rev (list_ascii_of_string s))).

(** [os.path.join(a, b)] *)
Definition join (a b : string) : string :=
  if startswith b "/" then b
  else if String.eqb a "" || endswith a "/" then a ++ b
  else a ++ "/" ++ b.

(** [os.path.dirname(p)] *)
Definition dirname (p : string) : string :=
  let l := list_ascii_of_string p in
  match rfind "/" l with
  | None => ""
  | Some i =>
      let head := firstn (S i) l in
      if forallb (fun c => Ascii.eqb c "/") head
      then string_of_list_ascii head
      else string_of_list_ascii (rev (drop_slashes (rev head)))
  end.

End PosixPath.

(** ** A file system, as far as the tools touch it. *)
Module FS.
Record fs := {
  is_dir : string -> bool;          (* existing directories *)
  file : string -> option string    (* existing regular files, with contents *)
}.

(** The working directory [""] always exists. *)
Definition dir_exists (s : fs) (d : string) : bool :=
  String.eqb d "" || is_dir s d.

Definition add_dir (s : fs) (d : string) : fs :=
  {| is_dir := fun d' => String.eqb d' d || is_dir s d'; file := file s |}.

(** [os.makedirs(d, exist_ok=True)] for a directory whose parent exists. *)
Definition makedirs_exist_ok (s : fs) (d : string) : py fs :=
  if is_dir s d then inr s
  else match file s d with
       | Some _ => inl (OSError "FileExistsError")
       | None => inr (add_dir s d)
       end.

Definition set_file (s : fs) (path text : string) : fs :=
  {| is_dir := is_dir s;
     file := fun p => if String.eqb p path then Some text else file s p |}.

(** [open(path, "w", newline="\n")]: a path holding a NUL character is
    refused before the system call; opening a directory, or a file in a
    directory that does not exist, fails; otherwise the file is created,
    or truncated to empty when it exists.  Permissions are not modelled. *)
Definition open_w (s : fs) (path : string) : py fs :=
  if existsb (Ascii.eqb Ascii.zero) (list_ascii_of_string path)
  then inl (ValueError "embedded null byte")
  else if is_dir s path then inl (OSError "IsADirectoryError")
  else if negb (dir_exists s (PosixPath.dirname path))
  then inl (OSError "FileNotFoundError")
  else inr (set_file s path "").

(** [f.write(text)] on the file just opened, with no newline translation:
    ASCII text always encodes, and device errors (a full disk) are not
    modelled. *)
Definition write (s : fs) (path text : string) : fs := set_file s path text.

(** [with open(path, "w", newline="\n") as f: f.write(text)] *)
Definition write_text (s : fs) (path text : string) : py fs :=
  match open_w s path with
  | inl e => inl e
  | inr s1 => inr (write s1 path text)
  end.
End FS.

(** ** [guillemot/tools/topas.py] *)
Module Topas.
Import PyStr.

Definition RUN_DIR : string := "run_dir".

Record SaveInpResult := {
  inp_path : string;
  line_count : nat
}.

(** [save_topas_inp(filename, inp_text)], threading the file system. *)
Definition save_topas_inp (s : FS.fs) (filename inp_text : string)
  : FS.fs * py SaveInpResult :=
  let basename := fst (PosixPath.splitext filename) in
  match FS.makedirs_exist_ok s RUN_DIR with
  | inl e => (s, inl e)
  | inr s1 =>
      let inp_path := PosixPath.join RUN_DIR (basename ++ ".inp") in
      let output_macro_text :=
        "Out_X_Yobs_Ycalc(" ++ dq ++ basename ++ "_output.txt" ++ dq ++ ")" in
      if negb (contains output_macro_text inp_text) then
        (s1, inl (ModelRetry ("input file doesn't contain the correct output macro: "
                  ++ output_macro_text ++ ". Please try again.")))
      else
        match FS.write_text s1 inp_path inp_text with
        | inl e => (s1, inl e)
        | inr s2 =>
            let lines := splitlines inp_text in
            (s2, inr {| inp_path := inp_path; line_count := List.length lines |})
        end
  end.

(** What [subprocess.run] reports. *)
Inductive completed :=
| CompletedProcess (returncode : Z) (stdout stderr : string).

Inductive run_outcome :=
| Completed (c : completed)
| TimeoutExpired
| RunRaised (e : py_exn).   (* e.g. the executable is missing *)

Definition TC_EXE : string := "\Science\Topas-7\tc.exe".

Section Refinement.
(** The environment: the subprocess, the file probes, [str(pathlib.Path(p))]
    and the plotting tool. *)
Variable subprocess_run : list string -> Z -> run_outcome.
Variable isfile : string -> bool.
Variable read_file : string -> py string.
Variable path_str : string -> string.
Variable PlotResultsOutput : Type.
Variable plot_refinement_results :
  string -> string -> option string -> py PlotResultsOutput.

Record RunRefinementResult := {
  status : string;
  stdout : string;
  stderr : string;
  outfile_path : option string;
  outfile_contents : option string;
  refinement_result_path : option string;
  logs_tail : option string;
  plot_results : option PlotResultsOutput
}.

(** [run_topas_refinement(inp_path, timeout_s)]; [result] is [None] while
    the local variable [result] is unbound. *)
Definition run_topas_refinement (inp_path : string) (timeout_s : Z)
  : py RunRefinementResult :=
  let attempt :=
    match subprocess_run [TC_EXE; inp_path] timeout_s with
    | Completed (CompletedProcess rc out err as r) =>
        inr (Some r, if Z.eqb rc 0 then "success" else "failure")
    | TimeoutExpired => inr (None, "timeout")
    | RunRaised e => inl e
    end in
  match attempt with
  | inl e => inl e
  | inr (result, status) =>
    if String.eqb status "failure" then
      match result with
      | Some (CompletedProcess _ out err) =>
          inl (ModelRetry ("TOPAS perhaps returned an error. stdout: "
                           ++ out ++ ", " ++ err))
      | None => inl (UnboundLocalError "result")
      end
    else
    let outfile_path0 := path_str (replace inp_path ".inp" ".out") in
    let outfile :=
      if isfile outfile_path0 then
        match read_file outfile_path0 with
        | inl e => inl e
        | inr c => inr (Some outfile_path0, Some c)
        end
      else inr (None, None) in
    match outfile with
    | inl e => inl e
    | inr (outfile_path, outfile_contents) =>
      let refinement_result_path0 := replace inp_path ".inp" "_output.txt" in
      let refinement_result_path :=
        if isfile refinement_result_path0 then Some refinement_result_path0
        else None in
      let hkl_file0 := replace inp_path ".inp" "_hkl.txt" in
      let hkl_file := if isfile hkl_file0 then Some hkl_file0 else None in
      let plot :=
        match refinement_result_path with
        | Some r =>
            let save_path := replace r "_output.txt" "_plot.png" in
            match plot_refinement_results r save_path hkl_file with
            | inl e => inl e
            | inr p => inr (Some p)
            end
        | None => inr None
        end in
      match plot with
      | inl e => inl e
      | inr plot_results =>
          match result with
          | None =>
              inl (UnboundLocalError
                     "cannot access local variable 'result' where it is not associated with a value")
          | Some (CompletedProcess _ out err) =>
              inr {| status := status;
                     outfile_path := outfile_path;
                     outfile_contents := outfile_contents;
                     refinement_result_path := refinement_result_path;
                     stdout := out;
                     stderr := err;
                     logs_tail := None;
                     plot_results := plot_results |}
          end
      end
    end
  end.
End Refinement.
End Topas.

(** ** [guillemot/tools/plotting.py]: which regions are drawn and how the
    axes are limited.  Drawing, saving the PNG and reading it back are not
    modelled; a loaded table is its rows [(x, yobs, ycalc)] in file order,
    so that pandas' default index of a row is its position. *)
Module Plotting.
Import PyStr.
Open Scope Q_scope.

Definition row : Type := (Q * Q * Q)%type.
Definition rx (r : row) : Q := fst (fst r).
Definition ryobs (r : row) : Q := snd (fst r).
Definition rycalc (r : row) : Q := snd r.

Definition Qltb (a b : Q) : bool := negb (Qle_bool b a).

Fixpoint idxmax_aux (f : row -> Q) (l : list row) (i : nat) (best : nat * Q)
  : nat * Q :=
  match l with
  | [] => best
  | r :: t =>
      if Qltb (snd best) (f r) then idxmax_aux f t (S i) (i, f r)
      else idxmax_aux f t (S i) best
  end.

(** [Series.idxmax()]: the first position of the maximum; [None] is the
    [ValueError] of an empty series. *)
Definition idxmax (f : row -> Q) (rows : list row) : option nat :=
  match rows with
  | [] => None
  | r :: t => Some (fst (idxmax_aux f t 1 (0%nat, f r)))
  end.

(** [Series.max()] and [Series.min()]; [None] is the NaN of an empty
    series. *)
Definition series_max (f : row -> Q) (rows : list row) : option Q :=
  match rows with
  | [] => None
  | r :: t => Some (fold_left (fun m r' => Qmax m (f r')) t (f r))
  end.
Definition series_min (f : row -> Q) (rows : list row) : option Q :=
  match rows with
  | [] => None
  | r :: t => Some (fold_left (fun m r' => Qmin m (f r')) t (f r))
  end.

(** [f"{v:.2f}"] of the exact value [v]: round half to even at two
    decimals. *)
Definition two_digits (k : Z) : string :=
  (if (k <? 10)%Z then "0" else "") ++ str_int k.
Definition fmt2 (v : Q) : string :=
  let neg := Qltb v 0 in
  let a := Qabs v in
  let m := (Qnum a * 100)%Z in
  let d := Zpos (Qden a) in
  let k0 := (m / d)%Z in
  let r := (m mod d)%Z in
  let k := if (d <? 2 * r)%Z then (k0 + 1)%Z
           else if (2 * r =? d)%Z then (if Z.odd k0 then (k0 + 1)%Z else k0)
           else k0 in
  (if neg then "-" else "") ++ str_int (k / 100) ++ "." ++ two_digits (k mod 100).

Definition d_theta : Q := 3.

(** The regions and titles of [plot_refinement_multi_panel]
    ([None] is the full range). *)
Definition multi_panel_regions (rows : list row)
  : py (list (option (Q * Q)) * list string) :=
  match idxmax ryobs rows,
        idxmax (fun r => Qabs (ryobs r - rycalc r)) rows,
        series_min rx rows, series_max rx rows with
  | Some peak_idx, Some resid_idx, Some x_min, Some x_max =>
      let peak_2theta := rx (nth peak_idx rows (0, 0, 0)) in
      let resid_2theta := rx (nth resid_idx rows (0, 0, 0)) in
      let high_third_min := x_min + (2 # 3) * (x_max - x_min) in
      inr ([None;
            Some (peak_2theta - d_theta, peak_2theta + d_theta);
            Some (resid_2theta - d_theta, resid_2theta + d_theta);
            Some (high_third_min, x_max)],
           ["Full range";
            "±" ++ str_nat 3 ++ "° around largest peak (" ++ fmt2 peak_2theta ++ "°)";
            "±" ++ str_nat 3 ++ "° around largest residual (" ++ fmt2 resid_2theta ++ "°)";
            "Highest third of 2θ range"])
  | _, _, _, _ => inl (ValueError "attempt to get argmax of an empty sequence")
  end.

(** The limits of one matplotlib axis; [None] leaves it autoscaled to all
    of the plotted data. *)
Record axis_limits := {
  xlim : option (Q * Q);
  ylim : option (Q * Q)
}.

Record panel := {
  ax_main : axis_limits;
  ax_resid : axis_limits;
  title : string
}.

Section Figures.
(** The reflection-tick block for a panel showing the given window:
    [None] when no hkl file is given; otherwise what it raises or the
    intensity limits it sets for the label buffer ([None]: unchanged). *)
Variable hkl_block : option (Q * Q) -> option (py (option (Q * Q))).

(** One panel of [plot_refinement_multi_panel]. *)
Definition multi_panel_one (x_range : option (Q * Q)) (t : string)
  : py panel :=
  let main_ylim :=
    match hkl_block x_range with
    | None => inr None
    | Some r => r
    end in
  match main_ylim with
  | inl e => inl e
  | inr yl =>
      inr {| ax_main := {| xlim := x_range; ylim := yl |};
             ax_resid := {| xlim := x_range; ylim := None |};
             title := t |}
  end.

Fixpoint map_py {A B} (f : A -> py B) (l : list A) : py (list B) :=
  match l with
  | [] => inr []
  | x :: t =>
      match f x with
      | inl e => inl e
      | inr y => match map_py f t with inl e => inl e | inr ys => inr (y :: ys) end
      end
  end.

(** [plot_refinement_multi_panel] on a loaded table: its panels. *)
Definition plot_refinement_multi_panel (rows : list row) : py (list panel) :=
  match multi_panel_regions rows with
  | inl e => inl e
  | inr (x_ranges, titles) =>
      map_py (fun p => multi_panel_one (fst p) (snd p)) (combine x_ranges titles)
  end.

(** The two axes of [plot_refinement_single_panel] ([sharex=True]: one
    shared x-limit). *)
Record single_figure := {
  shared_xlim : option (Q * Q);
  main_ylim : option (Q * Q)
}.

(** [yobs[(x >= lo) & (x <= hi)]] as rows. *)
Definition window (lo hi : Q) (rows : list row) : list row :=
  filter (fun r => Qle_bool lo (rx r) && Qle_bool (rx r) hi) rows.

(** [plot_refinement_single_panel] on a loaded table. *)
Definition plot_refinement_single_panel (rows : list row)
    (x_range : option (Q * Q)) : py single_figure :=
  let after_hkl :=
    match hkl_block x_range with
    | None => inr None
    | Some r => r
    end in
  match after_hkl with
  | inl e => inl e
  | inr yl =>
      match x_range with
      | None => inr {| shared_xlim := None; main_ylim := yl |}
      | Some (lo, hi) =>
          let w := window lo hi rows in
          match series_max ryobs w, series_max rycalc w with
          | Some mo, Some mc =>
              let max_y := Qmax mo mc in
              inr {| shared_xlim := Some (lo, hi);
                     main_ylim := Some (0, max_y * (11 # 10)) |}
          | _, _ => inl (ValueError "Axis limits cannot be NaN or Inf")
          end
      end
  end.
End Figures.

(** *** The reflection ticks and their labels, the loop shared by
    [plot_refinement_multi_panel] and [plot_refinement_single_panel]. *)

(** A row of the hkl table in the order left by [sort_values(by=5)]: the
    Miller indices, 2θ and the normalised intensity. *)
Record reflection := {
  rh : Z; rk : Z; rl : Z;
  two_theta : Q;
  inten : Q
}.

(** [ax_main.vlines(tt, tick_base, top)] *)
Record tick := { tick_x : Q; tick_lo : Q; tick_hi : Q }.

(** [ax_main.text(label_x, label_y, text)] *)
Record label := { label_x : Q; label_y : Q; label_text : string }.

Fixpoint idxmin_aux (f : row -> Q) (l : list row) (i : nat) (best : nat * Q)
  : nat * Q :=
  match l with
  | [] => best
  | r :: t =>
      if Qltb (f r) (snd best) then idxmin_aux f t (S i) (i, f r)
      else idxmin_aux f t (S i) best
  end.

(** [Series.idxmin()]: the first position of the minimum. *)
Definition idxmin (f : row -> Q) (rows : list row) : option nat :=
  match rows with
  | [] => None
  | r :: t => Some (fst (idxmin_aux f t 1 (0%nat, f r)))
  end.

Section Ticks.
(** The table [(x, yobs, ycalc)], the limits [ax_main.get_ylim()] read
    before the loop, and the window [x_min <= tt <= x_max]. *)
Variable rows : list row.
Variables ymin ymax x_min x_max : Q.

Definition tick_base : Q := ymin + (5 # 10000) * (ymax - ymin).
Definition min_label_dx : Q := (2 # 100) * (x_max - x_min).

Definition hkl_text (rf : reflection) : string :=
  "(" ++ str_int (rh rf) ++ "," ++ str_int (rk rf) ++ "," ++ str_int (rl rf) ++ ")".

(** The [for] loop, from [last_label_x] and [max_label_y]: the ticks and
    labels drawn, in order, and the final [max_label_y].  The arithmetic
    is exact; the code's float64 sums and differences round. *)
Fixpoint hkl_loop (refls : list reflection) (last_label_x max_label_y : option Q)
  : py (list tick * list label * option Q) :=
  match refls with
  | [] => inr ([], [], max_label_y)
  | rf :: rest =>
      let tt := two_theta rf in
      if Qle_bool x_min tt && Qle_bool tt x_max then
        let tk := {| tick_x := tt; tick_lo := tick_base;
                     tick_hi := tick_base + inten rf * (1 # 10) * (ymax - ymin) |} in
        let lx := match last_label_x with
                  | Some last => if Qltb (tt - last) min_label_dx
                                 then last + min_label_dx else tt
                  | None => tt
                  end in
        match idxmin (fun r => Qabs (rx r - tt)) rows with
        | None => inl (ValueError "attempt to get argmin of an empty sequence")
        | Some idx =>
            let r := nth idx rows (0, 0, 0) in
            let y_peak := Qmax (ryobs r) (rycalc r) in
            let ly := y_peak + (5 # 100) * (ymax - ymin) in
            let lb := {| label_x := lx; label_y := ly; label_text := hkl_text rf |} in
            let max_label_y' :=
              match max_label_y with
              | Some m => if Qltb m ly then Some ly else Some m
              | None => Some ly
              end in
            match hkl_loop rest (Some lx) max_label_y' with
            | inl e => inl e
            | inr (ts, ls, m) => inr (tk :: ts, lb :: ls, m)
            end
        end
      else hkl_loop rest last_label_x max_label_y
  end.

Definition hkl_ticks (refls : list reflection) : py (list tick * list label * option Q) :=
  hkl_loop refls None None.
End Ticks.

End Plotting.

(** ** [guillemot/utils.py] *)
Module Utils.
Import PyStr.

Record BinaryContent := {
  data : list Byte.byte;
  media_type : string
}.

Fixpoint split_on_slash (l : list ascii) (cur : list ascii) : list string :=
  match l with
  | [] => [string_of_list_ascii (rev cur)]
  | c :: t =>
      if Ascii.eqb c "/" then string_of_list_ascii (rev cur) :: split_on_slash t []
      else split_on_slash t (c :: cur)
  end.

(** [Path(p).name]: the last component, empty and [.] components
    dropped as [pathlib] does. *)
Definition path_name (p : string) : string :=
  let parts := filter (fun s => negb (String.eqb s "" || String.eqb s "."))
                      (split_on_slash (list_ascii_of_string p) []) in
  last parts "".

(** [Path(p).suffix] *)
Definition path_suffix (p : string) : string :=
  let name := list_ascii_of_string (path_name p) in
  match PosixPath.rfind "." name with
  | Some i =>
      if Nat.ltb 0 i && Nat.ltb i (List.length name - 1)
      then string_of_list_ascii (skipn i name) else ""
  | None => ""
  end.

(** [media_type_map.get(extension, "image/jpeg")] *)
Definition media_type_of (extension : string) : string :=
  if String.eqb extension ".jpg" then "image/jpeg"
  else if String.eqb extension ".jpeg" then "image/jpeg"
  else if String.eqb extension ".png" then "image/png"
  else if String.eqb extension ".gif" then "image/gif"
  else if String.eqb extension ".bmp" then "image/bmp"
  else if String.eqb extension ".webp" then "image/webp"
  else "image/jpeg".

Section Load.
(** The file-system probes of [pathlib], each of which may raise. *)
Variable exists_ : string -> py bool.
Variable is_file : string -> py bool.
Variable read_bytes : string -> py (list Byte.byte).

(** The body of the [try] block (the messages printed are not kept). *)
Definition load_local_image_body (image_path : string)
  : py (option BinaryContent) :=
  match exists_ image_path with
  | inl e => inl e
  | inr false => inr None
  | inr true =>
      match is_file image_path with
      | inl e => inl e
      | inr false => inr None
      | inr true =>
          let extension := lower (path_suffix image_path) in
          let media_type := media_type_of extension in
          match read_bytes image_path with
          | inl e => inl e
          | inr image_data =>
              inr (Some {| data := image_data; media_type := media_type |})
          end
      end
  end.

(** [load_local_image(image_path)]: [except Exception] returns [None]. *)
Definition load_local_image (image_path : string) : py (option BinaryContent) :=
  match load_local_image_body image_path with
  | inl _ => inr None
  | inr r => inr r
  end.
End Load.
End Utils.

(** ** [guillemot/main.py]: the conversation history and the reserved
    commands of the chat loop. *)
Module Main.
Import PyStr.

Record message := {
  role : string;
  content : string;
  has_image : bool;
  timestamp : string
}.

Record ConversationHistory := { messages : list message }.

(** [self.messages.append({...})] *)
Definition add_message (h : ConversationHistory) (role content : string)
    (has_image : bool) (timestamp : string) : ConversationHistory :=
  {| messages := messages h ++
       [{| role := role; content := content; has_image := has_image;
           timestamp := timestamp |}] |}.

(** The start of the slice [l[start:]], normalised as Python does. *)
Definition slice_start (start : Z) (len : nat) : nat :=
  if (start <? 0)%Z then Z.to_nat (Z.max 0 (start + Z.of_nat len))
  else Nat.min (Z.to_nat start) len.

(** [self.messages[-limit:]] *)
Definition get_recent_messages (h : ConversationHistory) (limit : Z)
  : list message :=
  skipn (slice_start (- limit) (List.length (messages h))) (messages h).

(** What one line of input does in [chat_loop], for the reserved
    commands; other input is dispatched to the agent.  The printed lines
    are kept without their decoration. *)
Inductive loop_step :=
| Quit
| Continue (h : ConversationHistory) (printed : list string)
| Dispatch (h : ConversationHistory) (user_input : string).

Definition chat_command (h : ConversationHistory) (line : string) : loop_step :=
  let user_input := string_of_list_ascii (strip (list_ascii_of_string line)) in
  let cmd := lower user_input in
  if String.eqb cmd "quit" || String.eqb cmd "exit" || String.eqb cmd "bye"
  then Quit
  else if String.eqb cmd "history" then
    Continue h (map (fun msg => role msg ++ ": " ++ content msg)
                    (get_recent_messages h 10))
  else if String.eqb cmd "clear" then
    Continue {| messages := [] |} []
  else if String.eqb user_input "" then Continue h []
  else Dispatch h user_input.

Definition nl : string := String (chr 10) EmptyString.

(** [get_formatted_history(limit)] *)
Definition format_message (msg : message) : string :=
  let content := if has_image msg then content msg ++ " [included an image]"
                 else content msg in
  role msg ++ ": " ++ content.

Definition get_formatted_history (h : ConversationHistory) (limit : Z) : string :=
  join nl (map format_message (get_recent_messages h limit)).

(** *** The image-reference patterns, matched as [re.search] with
    [re.IGNORECASE] matches them: the leftmost start, the greedy
    [[^\s]+] giving back one character at a time until the rest matches,
    the alternatives tried in order. *)

(** A literal under [re.IGNORECASE]; [p] is written in lower case. *)
Fixpoint ci_prefix (p l : list ascii) : bool :=
  match p, l with
  | [], _ => true
  | c :: p', d :: l' => Ascii.eqb c (lower_char d) && ci_prefix p' l'
  | _ :: _, [] => false
  end.

Definition lit (s : string) : list ascii := list_ascii_of_string s.

Definition image_exts : list string := ["jpg"; "jpeg"; "png"; "gif"; "bmp"; "webp"].

(** [(jpg|jpeg|png|gif|bmp|webp)] at the start of [l]: the length of the
    first alternative that matches. *)
Fixpoint first_alt (alts : list string) (l : list ascii) : option nat :=
  match alts with
  | [] => None
  | a :: rest =>
      if ci_prefix (lit a) l then Some (String.length a) else first_alt rest l
  end.

(** [\.(jpg|jpeg|png|gif|bmp|webp)] at the start of [l] *)
Definition dot_ext (l : list ascii) : option nat :=
  match l with
  | c :: t => if Ascii.eqb c "." then option_map S (first_alt image_exts t) else None
  | [] => None
  end.

(** The longest run of [[^\s]] at the start of [l]. *)
Fixpoint nonspace_len (l : list ascii) : nat :=
  match l with
  | c :: t => if is_space c then 0 else S (nonspace_len t)
  | [] => 0
  end.

(** [[^\s]+] has taken [k] characters and gives them back one by one. *)
Fixpoint backtrack (l : list ascii) (k : nat) : option nat :=
  match k with
  | O => None
  | S k' =>
      match dot_ext (skipn k l) with
      | Some e => Some (k + e)
      | None => backtrack l k'
      end
  end.

(** [[^\s]+\.(jpg|jpeg|png|gif|bmp|webp)] at the start of [l]: the length
    of the match. *)
Definition run_ext (l : list ascii) : option nat := backtrack l (nonspace_len l).

(** [://[^\s]+\.(...)] at the start of [l] *)
Definition after_scheme (l : list ascii) : option nat :=
  if ci_prefix (lit "://") l then option_map (Nat.add 3) (run_ext (skipn 3 l))
  else None.

(** [https?://[^\s]+\.(jpg|jpeg|png|gif|bmp|webp)] at the start of [l]:
    [s?] first takes the [s], then does without it. *)
Definition url_at (l : list ascii) : option nat :=
  if ci_prefix (lit "http") l then
    let r := skipn 4 l in
    match (if ci_prefix (lit "s") r then option_map S (after_scheme (skipn 1 r))
           else None) with
    | Some n => Some (4 + n)
    | None => option_map (Nat.add 4) (after_scheme r)
    end
  else None.

(** [(?:file://)?([^\s]+\.(jpg|jpeg|png|gif|bmp|webp))] at the start of
    [l]: the length of the optional prefix and of group 1. *)
Definition local_at (l : list ascii) : option (nat * nat) :=
  match (if ci_prefix (lit "file://") l
         then option_map (fun m => (7, m)) (run_ext (skipn 7 l)) else None) with
  | Some r => Some r
  | None => option_map (fun m => (0, m)) (run_ext l)
  end.

(** [re.search]: the leftmost position where the pattern matches, with
    what it matched there. *)
Fixpoint search {A} (f : list ascii -> option A) (l : list ascii) (i : nat)
  : option (nat * A) :=
  match f l with
  | Some a => Some (i, a)
  | None => match l with [] => None | _ :: t => search f t (S i) end
  end.

(** [text[i:i+n]] *)
Definition sub (l : list ascii) (i n : nat) : string :=
  string_of_list_ascii (firstn n (skipn i l)).

Definition strip_str (s : string) : string :=
  string_of_list_ascii (strip (list_ascii_of_string s)).

Definition is_image_url (text : string) : bool :=
  match search url_at (list_ascii_of_string text) 0 with
  | Some _ => true
  | None => false
  end.

Definition extract_image_url (text : string) : string * string :=
  let l := list_ascii_of_string text in
  match search url_at l 0 with
  | Some (i, n) =>
      let image_url := sub l i n in
      let text_without_url := strip_str (replace text image_url "") in
      (text_without_url, image_url)
  | None => (text, "")
  end.

Definition is_local_image_path (text : string) : bool :=
  match search local_at (list_ascii_of_string text) 0 with
  | Some _ => true
  | None => false
  end.

Definition extract_local_image_path (text : string) : string * string :=
  let l := list_ascii_of_string text in
  match search local_at l 0 with
  | Some (i, (p, m)) =>
      let image_path := replace (sub l (i + p) m) "file://" "" in
      let text_without_path := strip_str (replace text (sub l i (p + m)) "") in
      (text_without_path, image_path)
  | None => (text, "")
  end.

(** *** One dispatched input of [chat_loop]. *)

(** The parts of a message to the agent. *)
Inductive part :=
| TextPart (s : string)
| ImageUrl (url : string)
| Binary (b : Utils.BinaryContent).

Inductive agent_message :=
| Parts (ps : list part)
| Prompt (s : string).

(** The f-string [full_prompt], with its indentation. *)
Definition indent : string := "                ".
Definition full_prompt (history_context user_input : string) : string :=
  nl ++ indent ++ "Recent conversation history:" ++ nl ++
  indent ++ history_context ++ nl ++ nl ++
  indent ++ "Current user message: " ++ user_input ++ nl ++ indent.

Definition text_or_default (t : string) : string :=
  if String.eqb t "" then "Please analyze this image:" else t.

Section Turn.
(** The probes of [load_local_image] and [agent.run] (its [output], or
    what it raises). *)
Variable exists_ : string -> py bool.
Variable is_file : string -> py bool.
Variable read_bytes : string -> py (list Byte.byte).
Variable agent_run : agent_message -> py string.

(** [has_image] and [message_parts] *)
Definition message_parts_of (user_input : string) : py (bool * list part) :=
  if is_image_url user_input then
    let '(text_without_url, image_url) := extract_image_url user_input in
    inr (true, [TextPart (text_or_default text_without_url); ImageUrl image_url])
  else if is_local_image_path user_input then
    let '(text_without_path, image_path) := extract_local_image_path user_input in
    match Utils.load_local_image exists_ is_file read_bytes image_path with
    | inl e => inl e
    | inr (Some image_content) =>
        inr (true, [TextPart (text_or_default text_without_path); Binary image_content])
    | inr None => inr (false, [TextPart user_input])
    end
  else inr (false, [TextPart user_input]).

(** The body of the [try] block for a dispatched [user_input], with the
    timestamps of the two [add_message] calls; what it raises is caught by
    [except Exception] and the loop goes on with the history as it is. *)
Definition chat_turn (h : ConversationHistory) (user_input ts_user ts_assistant : string)
  : ConversationHistory * py string :=
  match message_parts_of user_input with
  | inl e => (h, inl e)
  | inr (has_image, message_parts) =>
      let h1 := add_message h "user" user_input has_image ts_user in
      let history_context := get_formatted_history h1 5 in
      let agent_message :=
        if has_image then Parts message_parts
        else Prompt (full_prompt history_context user_input) in
      match agent_run agent_message with
      | inl e => (h1, inl e)
      | inr response_text =>
          (add_message h1 "assistant" response_text false ts_assistant, inr response_text)
      end
  end.
End Turn.
End Main.

(** * Specification *)

Import PyStr.

Definition quote (el : string) : string := dq ++ el ++ dq.

(** C3: a single element [e] gives [elements HAS "e" AND elements LENGTH 1];
    N > 1 elements give [elements HAS ALL "e1","e2",... AND elements LENGTH N],
    quoted one by one in the given order, none dropped, merged or checked. *)
Theorem elements_filter_spec :
  (forall e : string,
      Optimade._create_optimade_elements_filter [e] =
      inr ("elements HAS " ++ quote e ++ " AND elements LENGTH 1")) /\
  (forall elements : list string,
      1 < List.length elements ->
      Optimade._create_optimade_elements_filter elements =
      inr ("elements HAS ALL " ++ join "," (map quote elements) ++
           " AND elements LENGTH " ++ str_nat (List.length elements))).
Proof.
  split.
  - intro e. reflexivity.
  - intros elements Hlen. unfold Optimade._create_optimade_elements_filter.
    apply Nat.ltb_lt in Hlen. rewrite Hlen, length_map. reflexivity.
Qed.

Lemma elements_filter_spec_witness :
  1 < List.length ["Sb"; "Sb"; "X"] /\
  Optimade._create_optimade_elements_filter ["Sb"; "Sb"; "X"] =
  inr ("elements HAS ALL " ++ join "," (map quote ["Sb"; "Sb"; "X"]) ++
       " AND elements LENGTH " ++ str_nat (List.length ["Sb"; "Sb"; "X"])).
Proof.
  split.
  - simpl. lia.
  - apply (proj2 elements_filter_spec). simpl. lia.
Defined.

(** C4: the sanitiser maps the spec's examples to ["CoNaO2"], but it is not
    idempotent: the count ["01"] is normalised by [int] to ["1"] after the
    unit-count test, so ["H01"] gives ["H1"], which sanitises again to ["H"]. *)
Theorem sanitize_formula_H01 :
  Optimade._sanitize_formula "NaCoO2" = inr "CoNaO2" /\
  Optimade._sanitize_formula "Na1Co1O2" = inr "CoNaO2" /\
  Optimade._sanitize_formula "H01" = inr "H1" /\
  Optimade._sanitize_formula "H1" = inr "H".
Proof. vm_compute. repeat split. Qed.

Lemma truthy_str_some (q : string) :
  q <> "" -> Optimade.truthy_str (Some q) = true.
Proof.
  intro H. unfold Optimade.truthy_str.
  destruct (String.eqb_spec q "") as [E|E]; [contradiction | reflexivity].
Qed.

Lemma truthy_list_some {A} (l : list A) :
  l <> [] -> Optimade.truthy_list (Some l) = true.
Proof. destruct l as [|x l]; [contradiction | reflexivity]. Qed.

(** C5 (as amended): for a known database, a non-empty query is the filter;
    otherwise a non-empty element list gives the filter; otherwise a
    non-empty formula (not on "cod") gives the filter of its sanitised form;
    exactly one filter is sent.  With none of the three supplied (None, ""
    and [] count as not supplied) the hard [RuntimeError] is raised and
    nothing is sent. *)
Theorem get_optimade_cifs_precedence :
  forall (entry dict : Type) (as_dict : entry -> dict)
         (client_get : string -> string -> list entry)
         (elements : option (list string)) (formula query : option string)
         (database endpoint : string),
  Optimade.allowed_database_endpoints database = Some endpoint ->
  let out := Optimade.get_optimade_cifs entry dict as_dict client_get
               elements formula query database in
  (forall q, query = Some q -> q <> "" ->
     Optimade.queries out = [(endpoint, q)]) /\
  (forall es flt, Optimade.truthy_str query = false -> elements = Some es ->
     es <> [] -> Optimade._create_optimade_elements_filter es = inr flt ->
     Optimade.queries out = [(endpoint, flt)]) /\
  (forall f sf, Optimade.truthy_str query = false ->
     Optimade.truthy_list elements = false -> formula = Some f -> f <> "" ->
     database <> "cod" -> Optimade._sanitize_formula f = inr sf ->
     Optimade.queries out =
       [(endpoint, "chemical_formula_reduced=" ++ dq ++ sf ++ dq)]) /\
  (Optimade.truthy_str query = false -> Optimade.truthy_list elements = false ->
     Optimade.truthy_str formula = false ->
     Optimade.queries out = [] /\
     Optimade.result out =
       inl (RuntimeError "Must provide either `elements` or `formula` or `query`.")).
Proof.
  intros entry dict as_dict client_get elements formula query database endpoint
         Hdb out.
  unfold out, Optimade.get_optimade_cifs. rewrite Hdb.
  unfold Optimade.choose_filter.
  split; [|split; [|split]].
  - intros q -> Hq. rewrite (truthy_str_some q Hq). reflexivity.
  - intros es flt Hq -> Hes Hflt. rewrite Hq, (truthy_list_some es Hes), Hflt.
    reflexivity.
  - intros f sf Hq Hel -> Hf Hcod Hsf. rewrite Hq, Hel, (truthy_str_some f Hf).
    destruct (String.eqb_spec database "cod") as [E|E]; [contradiction|].
    rewrite Hsf. reflexivity.
  - intros Hq Hel Hf. rewrite Hq, Hel, Hf. split; reflexivity.
Qed.

Lemma get_optimade_cifs_precedence_witness :
  Optimade.allowed_database_endpoints "mp" =
    Some "https://optimade.materialsproject.org" /\
  Optimade.queries
    (Optimade.get_optimade_cifs nat nat (fun n => n) (fun _ _ => [1])
       (Some ["Sb"]) (Some "NaCoO2") (Some "nelements=2") "mp") =
    [("https://optimade.materialsproject.org", "nelements=2")].
Proof.
  split; [reflexivity|].
  apply (get_optimade_cifs_precedence nat nat (fun n => n) (fun _ _ => [1])
           (Some ["Sb"]) (Some "NaCoO2") (Some "nelements=2") "mp"
           "https://optimade.materialsproject.org" eq_refl).
  - reflexivity.
  - discriminate.
Defined.

(** C5 counterexample: a call that supplies both a query and an element
    list is not refused; the query is sent and the call succeeds. *)
Lemma get_optimade_cifs_two_supplied :
  let out := Optimade.get_optimade_cifs nat nat (fun n => n) (fun _ _ => [1])
               (Some ["Sb"]) None (Some "nelements=2") "mp" in
  Optimade.queries out =
    [("https://optimade.materialsproject.org", "nelements=2")] /\
  Optimade.result out = inr [1].
Proof. split; reflexivity. Qed.

(** C6 (as amended): a formula search on "cod" with a non-empty formula
    (and neither a non-empty query nor a non-empty element list) raises the
    retryable [ModelRetry] guidance error and sends no query, whatever the
    formula (it is not even sanitised). *)
Theorem cod_formula_search_retry :
  forall (entry dict : Type) (as_dict : entry -> dict)
         (client_get : string -> string -> list entry)
         (elements : option (list string)) (query : option string) (f : string),
  Optimade.truthy_str query = false -> Optimade.truthy_list elements = false ->
  f <> "" ->
  let out := Optimade.get_optimade_cifs entry dict as_dict client_get
               elements (Some f) query "cod" in
  Optimade.result out =
    inl (ModelRetry "Use elements rather than formula for cod search") /\
  Optimade.queries out = [].
Proof.
  intros entry dict as_dict client_get elements query f Hq Hel Hf out.
  unfold out, Optimade.get_optimade_cifs, Optimade.choose_filter.
  rewrite Hq, Hel, (truthy_str_some f Hf). split; reflexivity.
Qed.

Lemma cod_formula_search_retry_witness :
  Optimade.truthy_str None = false /\ Optimade.truthy_list (@None (list string)) = false /\
  "Na(OH)2" <> "" /\
  Optimade.result
    (Optimade.get_optimade_cifs nat nat (fun n => n) (fun _ _ => [1])
       None (Some "Na(OH)2") None "cod") =
    inl (ModelRetry "Use elements rather than formula for cod search").
Proof.
  split; [reflexivity|]. split; [reflexivity|]. split; [discriminate|].
  apply (cod_formula_search_retry nat nat (fun n => n) (fun _ _ => [1])
           None None "Na(OH)2"); [reflexivity | reflexivity | discriminate].
Defined.

(** C6 counterexample: with the formula "" on "cod" the call raises the hard
    [RuntimeError], not the retryable guidance error. *)
Lemma cod_empty_formula_hard_error :
  Optimade.result
    (Optimade.get_optimade_cifs nat nat (fun n => n) (fun _ _ => [1])
       None (Some "") None "cod") =
    inl (RuntimeError "Must provide either `elements` or `formula` or `query`.").
Proof. reflexivity. Qed.

(** ** Paths *)

Lemma list_ascii_of_string_app (a b : string) :
  list_ascii_of_string (a ++ b) = (list_ascii_of_string a ++ list_ascii_of_string b)%list.
Proof. induction a as [|c a IH]; simpl; [reflexivity | now rewrite IH]. Qed.

Lemma rfind_aux_notin (c : ascii) (l : list ascii) :
  ~ In c l -> forall i found, PosixPath.rfind_aux c l i found = found.
Proof.
  induction l as [|d l IH]; intros Hn i found; [reflexivity|].
  simpl. destruct (Ascii.eqb_spec c d) as [E|E].
  - subst. exfalso. apply Hn. now left.
  - apply IH. intro H. apply Hn. now right.
Qed.

Lemma rfind_aux_app (c : ascii) (l1 l2 : list ascii) :
  forall i found,
  PosixPath.rfind_aux c (l1 ++ l2)%list i found =
  PosixPath.rfind_aux c l2 (i + List.length l1) (PosixPath.rfind_aux c l1 i found).
Proof.
  induction l1 as [|d l1 IH]; intros i found; simpl.
  - now rewrite Nat.add_0_r.
  - rewrite IH. now rewrite Nat.add_succ_r.
Qed.

Lemma prefix_slash_notin (b : string) :
  ~ In "/"%char (list_ascii_of_string b) ->
  prefix "/" (b ++ ".inp") = false.
Proof.
  destruct b as [|c b]; intro Hn; [reflexivity|].
  cbn -[Ascii.ascii_dec].
  destruct (Ascii.ascii_dec "/"%char c) as [E|E]; [|reflexivity].
  exfalso. apply Hn. subst. now left.
Qed.

Lemma join_run_dir (b : string) :
  ~ In "/"%char (list_ascii_of_string b) ->
  PosixPath.join Topas.RUN_DIR (b ++ ".inp") = "run_dir/" ++ b ++ ".inp".
Proof.
  intro Hn. unfold PosixPath.join, startswith.
  rewrite (prefix_slash_notin b Hn). reflexivity.
Qed.

Lemma dirname_run_dir (b : string) :
  ~ In "/"%char (list_ascii_of_string b) ->
  PosixPath.dirname ("run_dir/" ++ b ++ ".inp") = "run_dir".
Proof.
  intro Hn. unfold PosixPath.dirname, PosixPath.rfind.
  change ("run_dir/" ++ b ++ ".inp") with ("run_dir/" ++ (b ++ ".inp")).
  rewrite list_ascii_of_string_app, rfind_aux_app.
  rewrite list_ascii_of_string_app, rfind_aux_notin.
  - cbn [PosixPath.rfind_aux list_ascii_of_string Ascii.eqb List.length
         Bool.eqb Nat.add].
    rewrite firstn_app. reflexivity.
  - rewrite in_app_iff. intros [H|H]; [now apply Hn|].
    simpl in H. intuition discriminate.
Qed.

Lemma makedirs_run_dir (s : FS.fs) :
  FS.is_dir s Topas.RUN_DIR = true \/ FS.file s Topas.RUN_DIR = None ->
  exists s1, FS.makedirs_exist_ok s Topas.RUN_DIR = inr s1 /\
    FS.is_dir s1 Topas.RUN_DIR = true /\
    (forall d, d <> Topas.RUN_DIR -> FS.is_dir s1 d = FS.is_dir s d) /\
    FS.file s1 = FS.file s.
Proof.
  intro H. unfold FS.makedirs_exist_ok.
  destruct (FS.is_dir s Topas.RUN_DIR) eqn:E.
  - exists s. repeat split; auto.
  - destruct H as [H|H]; [discriminate|]. rewrite H.
    eexists. split; [reflexivity|]. cbn. split; [reflexivity|]. split; [|reflexivity].
    intros d Hd. destruct (String.eqb_spec d Topas.RUN_DIR); [contradiction|reflexivity].
Qed.

Lemma no_nul_inp_path (basename : string) :
  ~ In Ascii.zero (list_ascii_of_string basename) ->
  existsb (Ascii.eqb Ascii.zero) (list_ascii_of_string ("run_dir/" ++ basename ++ ".inp")) = false.
Proof.
  intro Hz. rewrite !list_ascii_of_string_app, !existsb_app.
  replace (existsb (Ascii.eqb Ascii.zero) (list_ascii_of_string basename)) with false.
  - reflexivity.
  - symmetry. apply Bool.not_true_is_false. intro H.
    apply existsb_exists in H as [c [Hc Hcz]].
    apply Ascii.eqb_eq in Hcz. subst c. contradiction.
Qed.

(** Whether a computation raised [ModelRetry]. *)
Definition is_model_retry {A} (r : py A) : bool :=
  match r with inl (ModelRetry _) => true | _ => false end.

Definition empty_fs : FS.fs := {| FS.is_dir := fun _ => false; FS.file := fun _ => None |}.

(** C2 (as amended): unless [run_dir] is an existing regular file,
    [save_topas_inp] raises the retryable error exactly when the content
    lacks [Out_X_Yobs_Ycalc("<basename>_output.txt")] for
    [basename = os.path.splitext(filename)[0]]; when the content has it,
    the basename names no directory (no '/') and holds no NUL character,
    and [run_dir/<basename>.inp] is not an existing directory, the content
    is written unchanged to [run_dir/<basename>.inp] and the call returns
    that path and the number of lines of [content.splitlines()]. *)
Theorem save_topas_inp_spec :
  forall (s : FS.fs) (filename inp_text : string),
  FS.is_dir s Topas.RUN_DIR = true \/ FS.file s Topas.RUN_DIR = None ->
  let basename := fst (PosixPath.splitext filename) in
  let macro := "Out_X_Yobs_Ycalc(" ++ dq ++ basename ++ "_output.txt" ++ dq ++ ")" in
  let res := Topas.save_topas_inp s filename inp_text in
  is_model_retry (snd res) = negb (contains macro inp_text) /\
  (contains macro inp_text = true ->
   ~ In "/"%char (list_ascii_of_string basename) ->
   ~ In Ascii.zero (list_ascii_of_string basename) ->
   FS.is_dir s ("run_dir/" ++ basename ++ ".inp") = false ->
   snd res = inr {| Topas.inp_path := "run_dir/" ++ basename ++ ".inp";
                    Topas.line_count := List.length (splitlines inp_text) |} /\
   FS.file (fst res) ("run_dir/" ++ basename ++ ".inp") = Some inp_text).
Proof.
  intros s filename inp_text Hrd basename macro res.
  destruct (makedirs_run_dir s Hrd) as [s1 [Hmk [Hd1 [Hd2 Hf]]]].
  unfold res, Topas.save_topas_inp. rewrite Hmk. fold basename. fold macro.
  destruct (contains macro inp_text) eqn:Hc; cbn [negb].
  - split.
    + unfold FS.write_text, FS.open_w.
      repeat match goal with
             | |- context [if ?b then _ else _] => destruct b
             end; reflexivity.
    + intros _ Hn Hz Hdir. rewrite (join_run_dir basename Hn).
      assert (Hne : "run_dir/" ++ basename ++ ".inp" <> Topas.RUN_DIR)
        by (unfold Topas.RUN_DIR; discriminate).
      unfold FS.write_text, FS.open_w.
      rewrite (no_nul_inp_path basename Hz), (Hd2 _ Hne), Hdir.
      unfold FS.dir_exists. rewrite (dirname_run_dir basename Hn).
      change (Topas.RUN_DIR) with "run_dir" in Hd1. rewrite Hd1.
      cbn. rewrite String.eqb_refl. split; reflexivity.
  - split; [reflexivity | discriminate].
Qed.

(** C2 counterexample: the content has the macro for the basename
    ["sub/x"], but [run_dir/sub] does not exist, so writing
    [run_dir/sub/x.inp] raises instead of returning the path. *)
Lemma save_topas_inp_subdir_fails :
  snd (Topas.save_topas_inp empty_fs "sub/x.inp"
         ("Out_X_Yobs_Ycalc(" ++ dq ++ "sub/x_output.txt" ++ dq ++ ")")) =
  inl (OSError "FileNotFoundError").
Proof. vm_compute. reflexivity. Qed.

Lemma save_topas_inp_spec_witness :
  (FS.is_dir empty_fs Topas.RUN_DIR = true \/ FS.file empty_fs Topas.RUN_DIR = None) /\
  is_model_retry (snd (Topas.save_topas_inp empty_fs "x.inp" "xdd 1")) =
  negb (contains ("Out_X_Yobs_Ycalc(" ++ dq ++ "x_output.txt" ++ dq ++ ")") "xdd 1").
Proof.
  split; [right; reflexivity|].
  exact (proj1 (save_topas_inp_spec empty_fs "x.inp" "xdd 1" (or_intror eq_refl))).
Defined.

(** C1: [run_topas_refinement] calls the executable with the input path as
    its only argument.  Exit code 0: any result it returns has status
    "success" and the captured stdout and stderr (and with no output files
    it does return one).  A non-zero exit code raises [ModelRetry] with
    the captured stdout and stderr.  After a timeout it never returns a
    result: the unbound [result] is read for [stdout=result.stdout]. *)
Theorem run_topas_refinement_outcomes :
  forall (subprocess_run : list string -> Z -> Topas.run_outcome)
         (isfile : string -> bool) (read_file : string -> py string)
         (path_str : string -> string) (PlotResultsOutput : Type)
         (plot : string -> string -> option string -> py PlotResultsOutput)
         (inp_path : string) (timeout_s : Z),
  let run := Topas.run_topas_refinement subprocess_run isfile read_file path_str
               PlotResultsOutput plot inp_path timeout_s in
  (forall out err,
     subprocess_run [Topas.TC_EXE; inp_path] timeout_s =
       Topas.Completed (Topas.CompletedProcess 0 out err) ->
     (forall r, run = inr r ->
        Topas.status _ r = "success" /\ Topas.stdout _ r = out /\
        Topas.stderr _ r = err) /\
     ((forall p, isfile p = false) -> exists r, run = inr r)) /\
  (forall rc out err,
     subprocess_run [Topas.TC_EXE; inp_path] timeout_s =
       Topas.Completed (Topas.CompletedProcess rc out err) ->
     rc <> 0%Z ->
     run = inl (ModelRetry ("TOPAS perhaps returned an error. stdout: "
                            ++ out ++ ", " ++ err))) /\
  (subprocess_run [Topas.TC_EXE; inp_path] timeout_s = Topas.TimeoutExpired ->
     forall r, run <> inr r).
Proof.
  intros subprocess_run isfile read_file path_str PlotResultsOutput plot
         inp_path timeout_s run.
  unfold run, Topas.run_topas_refinement.
  split; [|split].
  - intros out err Hrun. rewrite Hrun. cbn [Z.eqb String.eqb].
    split.
    + intros r.
      repeat match goal with
             | |- context [match ?x with _ => _ end] =>
                 lazymatch x with
                 | inr _ => fail
                 | inl _ => fail
                 | _ => destruct x
                 end
             end;
      intro E; try discriminate; injection E as <-; repeat split.
    + intros Hf. rewrite !Hf. eexists. reflexivity.
  - intros rc out err Hrun Hrc. rewrite Hrun.
    destruct (Z.eqb_spec rc 0) as [E|E]; [contradiction|]. reflexivity.
  - intros Hrun r. rewrite Hrun. cbn [String.eqb].
    repeat match goal with
           | |- context [match ?x with _ => _ end] =>
               lazymatch x with
               | inr _ => fail
               | inl _ => fail
               | _ => destruct x
               end
           end; discriminate.
Qed.

Lemma run_topas_refinement_outcomes_witness :
  Topas.run_topas_refinement (fun _ _ => Topas.TimeoutExpired) (fun _ => false)
    (fun _ => inr "") (fun p => p) unit (fun _ _ _ => inr tt) "a.inp" 60 =
  inl (UnboundLocalError
         "cannot access local variable 'result' where it is not associated with a value") /\
  forall r, Topas.run_topas_refinement (fun _ _ => Topas.TimeoutExpired)
              (fun _ => false) (fun _ => inr "") (fun p => p) unit
              (fun _ _ _ => inr tt) "a.inp" 60 <> inr r.
Proof.
  split; [reflexivity|].
  apply (proj2 (proj2 (run_topas_refinement_outcomes
           (fun _ _ => Topas.TimeoutExpired) (fun _ => false) (fun _ => inr "")
           (fun p => p) unit (fun _ _ _ => inr tt) "a.inp" 60))).
  reflexivity.
Defined.

(** ** Plotting *)
Section PlotFacts.
Import Plotting.
Open Scope Q_scope.

Lemma Qmax_cases (a b : Q) : Qmax a b = a \/ Qmax a b = b.
Proof. unfold Qmax, GenericMinMax.gmax. destruct (a ?= b); auto. Qed.

Lemma Qmin_cases (a b : Q) : Qmin a b = a \/ Qmin a b = b.
Proof. unfold Qmin, GenericMinMax.gmin. destruct (a ?= b); auto. Qed.

Lemma fold_max_spec (f : row -> Q) (t : list row) :
  forall a,
  let m := fold_left (fun m r' => Qmax m (f r')) t a in
  a <= m /\ (forall x, In x t -> f x <= m) /\ (m = a \/ exists x, In x t /\ m = f x).
Proof.
  induction t as [|y t IH]; intro a; simpl.
  - split; [apply Qle_refl|]. split; [intros x []|]. now left.
  - destruct (IH (Qmax a (f y))) as [H1 [H2 H3]].
    split; [|split].
    + eapply Qle_trans; [apply Q.le_max_l | exact H1].
    + intros x [<-|Hx]; [|now apply H2].
      eapply Qle_trans; [apply Q.le_max_r | exact H1].
    + destruct H3 as [E|[x [Hx E]]].
      * rewrite E. destruct (Qmax_cases a (f y)) as [E'|E']; rewrite E'.
        -- now left.
        -- right. exists y. split; [now left | reflexivity].
      * right. exists x. split; [now right | exact E].
Qed.

Lemma fold_min_spec (f : row -> Q) (t : list row) :
  forall a,
  let m := fold_left (fun m r' => Qmin m (f r')) t a in
  m <= a /\ (forall x, In x t -> m <= f x) /\ (m = a \/ exists x, In x t /\ m = f x).
Proof.
  induction t as [|y t IH]; intro a; simpl.
  - split; [apply Qle_refl|]. split; [intros x []|]. now left.
  - destruct (IH (Qmin a (f y))) as [H1 [H2 H3]].
    split; [|split].
    + eapply Qle_trans; [exact H1 | apply Q.le_min_l].
    + intros x [<-|Hx]; [|now apply H2].
      eapply Qle_trans; [exact H1 | apply Q.le_min_r].
    + destruct H3 as [E|[x [Hx E]]].
      * rewrite E. destruct (Qmin_cases a (f y)) as [E'|E']; rewrite E'.
        -- now left.
        -- right. exists y. split; [now left | reflexivity].
      * right. exists x. split; [now right | exact E].
Qed.

(** [Series.max()] is the largest value of the series, taken by a row. *)
Lemma series_max_spec (f : row -> Q) (rows : list row) (m : Q) :
  series_max f rows = Some m ->
  (forall r, In r rows -> f r <= m) /\ (exists r, In r rows /\ f r = m).
Proof.
  destruct rows as [|r t]; simpl; [discriminate|]. intros [= <-].
  destruct (fold_max_spec f t (f r)) as [H1 [H2 H3]].
  split.
  - intros x [<-|Hx]; [exact H1 | now apply H2].
  - destruct H3 as [E|[x [Hx E]]].
    + exists r. split; [now left | symmetry; exact E].
    + exists x. split; [now right | symmetry; exact E].
Qed.

Lemma series_min_spec (f : row -> Q) (rows : list row) (m : Q) :
  series_min f rows = Some m ->
  (forall r, In r rows -> m <= f r) /\ (exists r, In r rows /\ f r = m).
Proof.
  destruct rows as [|r t]; simpl; [discriminate|]. intros [= <-].
  destruct (fold_min_spec f t (f r)) as [H1 [H2 H3]].
  split.
  - intros x [<-|Hx]; [exact H1 | now apply H2].
  - destruct H3 as [E|[x [Hx E]]].
    + exists r. split; [now left | symmetry; exact E].
    + exists x. split; [now right | symmetry; exact E].
Qed.

Lemma series_max_some (f : row -> Q) (rows : list row) :
  rows <> [] -> exists m, series_max f rows = Some m.
Proof. destruct rows; [contradiction|]. intros _. eexists. reflexivity. Qed.

Lemma series_min_some (f : row -> Q) (rows : list row) :
  rows <> [] -> exists m, series_min f rows = Some m.
Proof. destruct rows; [contradiction|]. intros _. eexists. reflexivity. Qed.
End PlotFacts.

Section ArgmaxFacts.
Import Plotting.
Open Scope Q_scope.

Definition row0 : row := (0, 0, 0).

Lemma idxmax_aux_spec (f : row -> Q) (l : list row) :
  forall i b v,
  let res := idxmax_aux f l i (b, v) in
  v <= snd res /\ (forall x, In x l -> f x <= snd res) /\
  ((fst res = b /\ snd res = v) \/
   exists k, (k < List.length l)%nat /\ fst res = (i + k)%nat /\
             snd res = f (nth k l row0)).
Proof.
  induction l as [|r l IH]; intros i b v; simpl.
  - split; [apply Qle_refl|]. split; [intros x []|]. now left.
  - unfold Qltb. destruct (Qle_bool (f r) v) eqn:E; simpl.
    + apply Qle_bool_iff in E.
      destruct (IH (S i) b v) as [H1 [H2 H3]].
      split; [exact H1|]. split.
      * intros x [<-|Hx]; [eapply Qle_trans; eauto | now apply H2].
      * destruct H3 as [H3|[k [Hk [Hb Hv]]]]; [now left|].
        right. exists (S k). split; [lia|]. split; [rewrite Hb; lia | exact Hv].
    + assert (Hlt : v < f r).
      { apply Qnot_le_lt. intro C. apply Qle_bool_iff in C. congruence. }
      destruct (IH (S i) i (f r)) as [H1 [H2 H3]].
      split; [eapply Qle_trans; [apply Qlt_le_weak, Hlt | exact H1]|]. split.
      * intros x [<-|Hx]; [exact H1 | now apply H2].
      * right. destruct H3 as [[Hb Hv]|[k [Hk [Hb Hv]]]].
        -- exists 0%nat. split; [lia|]. split; [rewrite Hb; lia | exact Hv].
        -- exists (S k). split; [lia|]. split; [rewrite Hb; lia | exact Hv].
Qed.

(** [Series.idxmax()] is a position of a largest value. *)
Lemma idxmax_spec (f : row -> Q) (rows : list row) (i : nat) :
  idxmax f rows = Some i ->
  (i < List.length rows)%nat /\
  forall x, In x rows -> f x <= f (nth i rows row0).
Proof.
  destruct rows as [|r t]; [discriminate|]. unfold idxmax. intros [= <-].
  destruct (idxmax_aux_spec f t 1 0 (f r)) as [H1 [H2 H3]].
  assert (Hv : snd (idxmax_aux f t 1 (0%nat, f r)) =
               f (nth (fst (idxmax_aux f t 1 (0%nat, f r))) (r :: t) row0)
           /\ (fst (idxmax_aux f t 1 (0%nat, f r)) < S (List.length t))%nat).
  { destruct H3 as [[Hb Hv]|[k [Hk [Hb Hv]]]].
    - rewrite Hb, Hv. split; [reflexivity | lia].
    - rewrite Hb, Hv. split; [reflexivity | lia]. }
  destruct Hv as [Hv Hlt]. split; [exact Hlt|].
  rewrite <- Hv. intros x [<-|Hx]; [exact H1 | now apply H2].
Qed.

Lemma idxmax_some (f : row -> Q) (rows : list row) :
  rows <> [] -> exists i, idxmax f rows = Some i.
Proof. destruct rows; [contradiction|]. intros _. eexists. reflexivity. Qed.
End ArgmaxFacts.

(** C8: on every non-empty table, [plot_refinement_multi_panel] shows
    exactly four regions: the full range, +-3 around the angle [peak] of a
    largest observed intensity, +-3 around the angle [resid] of a largest
    [|yobs - ycalc|], and [[x_min + 2/3 (x_max - x_min), x_max]]; the second
    title embeds [peak] formatted with two decimals.  Both axes of each
    panel get its region as angle limits. *)
Theorem multi_panel_regions_spec :
  forall rows : list Plotting.row,
  rows <> [] ->
  exists ip ir x_min x_max,
    let peak := Plotting.rx (nth ip rows row0) in
    let resid := Plotting.rx (nth ir rows row0) in
    let regions := [None;
                    Some (peak - 3, peak + 3)%Q;
                    Some (resid - 3, resid + 3)%Q;
                    Some (x_min + (2 # 3) * (x_max - x_min), x_max)%Q] in
    let titles := ["Full range";
                   "±3° around largest peak (" ++ Plotting.fmt2 peak ++ "°)";
                   "±3° around largest residual (" ++ Plotting.fmt2 resid ++ "°)";
                   "Highest third of 2θ range"] in
    Plotting.multi_panel_regions rows = inr (regions, titles) /\
    (ip < List.length rows)%nat /\
    (forall r, In r rows -> (Plotting.ryobs r <= Plotting.ryobs (nth ip rows row0))%Q) /\
    (ir < List.length rows)%nat /\
    (forall r, In r rows ->
       (Qabs (Plotting.ryobs r - Plotting.rycalc r) <=
        Qabs (Plotting.ryobs (nth ir rows row0) - Plotting.rycalc (nth ir rows row0)))%Q) /\
    (forall r, In r rows -> (x_min <= Plotting.rx r <= x_max)%Q) /\
    (exists r, In r rows /\ Plotting.rx r = x_min) /\
    (exists r, In r rows /\ Plotting.rx r = x_max) /\
    (forall hkl_block ps,
       Plotting.plot_refinement_multi_panel hkl_block rows = inr ps ->
       map (fun p => (Plotting.xlim (Plotting.ax_main p),
                      Plotting.xlim (Plotting.ax_resid p),
                      Plotting.title p)) ps =
       map (fun rt => (fst rt, fst rt, snd rt)) (combine regions titles)).
Proof.
  intros rows Hne.
  destruct (idxmax_some Plotting.ryobs rows Hne) as [ip Hip].
  destruct (idxmax_some (fun r => Qabs (Plotting.ryobs r - Plotting.rycalc r)) rows Hne)
    as [ir Hir].
  destruct (series_min_some Plotting.rx rows Hne) as [x_min Hmin].
  destruct (series_max_some Plotting.rx rows Hne) as [x_max Hmax].
  exists ip, ir, x_min, x_max. cbv zeta.
  destruct (idxmax_spec _ _ _ Hip) as [Hip1 Hip2].
  destruct (idxmax_spec _ _ _ Hir) as [Hir1 Hir2].
  destruct (series_min_spec _ _ _ Hmin) as [Hmin1 Hmin2].
  destruct (series_max_spec _ _ _ Hmax) as [Hmax1 Hmax2].
  assert (Hreg : Plotting.multi_panel_regions rows =
    inr ([None;
          Some (Plotting.rx (nth ip rows row0) - 3, Plotting.rx (nth ip rows row0) + 3)%Q;
          Some (Plotting.rx (nth ir rows row0) - 3, Plotting.rx (nth ir rows row0) + 3)%Q;
          Some (x_min + (2 # 3) * (x_max - x_min), x_max)%Q],
         ["Full range";
          "±3° around largest peak (" ++ Plotting.fmt2 (Plotting.rx (nth ip rows row0)) ++ "°)";
          "±3° around largest residual (" ++ Plotting.fmt2 (Plotting.rx (nth ir rows row0)) ++ "°)";
          "Highest third of 2θ range"])).
  { unfold Plotting.multi_panel_regions. rewrite Hip, Hir, Hmin, Hmax. reflexivity. }
  split; [exact Hreg|].
  do 7 (split; [assumption || (intros r Hr; split; [now apply Hmin1 | now apply Hmax1])|]).
  intros hkl_block ps Hplot.
  unfold Plotting.plot_refinement_multi_panel in Hplot. rewrite Hreg in Hplot.
  unfold Plotting.multi_panel_one in Hplot. simpl in Hplot.
  repeat match type of Hplot with
         | context [match hkl_block ?w with _ => _ end] =>
             let h := fresh "h" in
             destruct (hkl_block w) as [h|]; [destruct h|]; simpl in Hplot
         end;
  try discriminate; injection Hplot as <-; reflexivity.
Qed.

Lemma multi_panel_regions_spec_witness :
  [((10, 1, 1) : Plotting.row); (20, 5, 2); (30, 4, 4); (40, 2, 2)]%Q <> [] /\
  exists ip ir x_min x_max,
    Plotting.multi_panel_regions [((10, 1, 1) : Plotting.row); (20, 5, 2); (30, 4, 4); (40, 2, 2)]%Q =
    inr ([None;
          Some (Plotting.rx (nth ip [((10, 1, 1) : Plotting.row); (20, 5, 2); (30, 4, 4); (40, 2, 2)]%Q row0) - 3,
                Plotting.rx (nth ip [((10, 1, 1) : Plotting.row); (20, 5, 2); (30, 4, 4); (40, 2, 2)]%Q row0) + 3)%Q;
          Some (Plotting.rx (nth ir [((10, 1, 1) : Plotting.row); (20, 5, 2); (30, 4, 4); (40, 2, 2)]%Q row0) - 3,
                Plotting.rx (nth ir [((10, 1, 1) : Plotting.row); (20, 5, 2); (30, 4, 4); (40, 2, 2)]%Q row0) + 3)%Q;
          Some (x_min + (2 # 3) * (x_max - x_min), x_max)%Q],
         ["Full range";
          "±3° around largest peak (" ++ Plotting.fmt2 (Plotting.rx (nth ip [((10, 1, 1) : Plotting.row); (20, 5, 2); (30, 4, 4); (40, 2, 2)]%Q row0)) ++ "°)";
          "±3° around largest residual (" ++ Plotting.fmt2 (Plotting.rx (nth ir [((10, 1, 1) : Plotting.row); (20, 5, 2); (30, 4, 4); (40, 2, 2)]%Q row0)) ++ "°)";
          "Highest third of 2θ range"]).
Proof.
  split; [discriminate|].
  destruct (multi_panel_regions_spec
              [((10, 1, 1) : Plotting.row); (20, 5, 2); (30, 4, 4); (40, 2, 2)]%Q
              ltac:(discriminate)) as [ip [ir [x_min [x_max [H _]]]]].
  exists ip, ir, x_min, x_max. exact H.
Defined.

Lemma multi_panel_regions_length (rows : list Plotting.row) xs ts :
  Plotting.multi_panel_regions rows = inr (xs, ts) -> length xs = length ts.
Proof.
  unfold Plotting.multi_panel_regions.
  repeat match goal with
         | |- context [match ?c with Some _ => _ | None => _ end] => destruct c
         end;
    intro H; try discriminate; injection H as <- <-; reflexivity.
Qed.

Lemma multi_panel_map_limits hkl_block (xs : list (option (Q * Q))) (ts : list string) ps :
  length xs = length ts ->
  Plotting.map_py (fun p => Plotting.multi_panel_one hkl_block (fst p) (snd p))
    (combine xs ts) = inr ps ->
  Forall2 (fun p xr =>
             Plotting.xlim (Plotting.ax_main p) = xr /\
             Plotting.xlim (Plotting.ax_resid p) = xr /\
             ((hkl_block xr = None /\ Plotting.ylim (Plotting.ax_main p) = None) \/
              hkl_block xr = Some (inr (Plotting.ylim (Plotting.ax_main p))))) ps xs.
Proof.
  revert ts ps. induction xs as [|xr xs IH]; intros [|t ts] ps Hlen H;
    try discriminate; simpl in H.
  - injection H as <-. constructor.
  - unfold Plotting.multi_panel_one at 1 in H.
    destruct (hkl_block xr) as [[e|yl]|] eqn:Eh.
    + discriminate.
    + destruct (Plotting.map_py _ (combine xs ts)) as [e|ys] eqn:Ers; [discriminate|].
      injection H as <-. constructor.
      * simpl. split; [reflexivity|]. split; [reflexivity|]. now right.
      * apply (IH ts); [now injection Hlen | exact Ers].
    + destruct (Plotting.map_py _ (combine xs ts)) as [e|ys] eqn:Ers; [discriminate|].
      injection H as <-. constructor.
      * simpl. split; [reflexivity|]. split; [reflexivity|]. now left.
      * apply (IH ts); [now injection Hlen | exact Ers].
Qed.

(** C7: in [plot_refinement_single_panel], an angle range [(lo, hi)]
    holding at least one data point sets the shared angle limits of both
    axes to it and the main-axis intensity limits to [(0, 1.1 * max)], with
    [max] the largest observed or calculated intensity inside the window
    (whatever the reflection-tick block set before).
    [plot_refinement_multi_panel] has no such rescaling: each panel's two
    axes get the panel's angle range, and the main-axis intensity limits
    are exactly those the reflection-tick block leaves for that panel
    (autoscaled without a reflection file, the label-buffer limits with
    one), whatever the intensities inside the window. *)
Theorem single_panel_zoom_rescales :
  (forall (hkl_block : option (Q * Q) -> option (py (option (Q * Q))))
          (rows : list Plotting.row) (lo hi : Q),
   Plotting.window lo hi rows <> [] ->
   (forall e, hkl_block (Some (lo, hi)) <> Some (inl e)) ->
   exists mo mc,
     Plotting.plot_refinement_single_panel hkl_block rows (Some (lo, hi)) =
       inr {| Plotting.shared_xlim := Some (lo, hi);
              Plotting.main_ylim := Some (0, Qmax mo mc * (11 # 10))%Q |} /\
     (forall r, In r (Plotting.window lo hi rows) ->
        (Plotting.ryobs r <= mo)%Q /\ (Plotting.rycalc r <= mc)%Q) /\
     (exists r, In r (Plotting.window lo hi rows) /\ Plotting.ryobs r = mo) /\
     (exists r, In r (Plotting.window lo hi rows) /\ Plotting.rycalc r = mc)) /\
  (forall (hkl_block : option (Q * Q) -> option (py (option (Q * Q))))
          (rows : list Plotting.row) ps,
   Plotting.plot_refinement_multi_panel hkl_block rows = inr ps ->
   exists xs ts,
     Plotting.multi_panel_regions rows = inr (xs, ts) /\
     Forall2 (fun p xr =>
                Plotting.xlim (Plotting.ax_main p) = xr /\
                Plotting.xlim (Plotting.ax_resid p) = xr /\
                ((hkl_block xr = None /\ Plotting.ylim (Plotting.ax_main p) = None) \/
                 hkl_block xr = Some (inr (Plotting.ylim (Plotting.ax_main p))))) ps xs).
Proof.
  split.
  - intros hkl_block rows lo hi Hw Hhkl.
    destruct (series_max_some Plotting.ryobs _ Hw) as [mo Hmo].
    destruct (series_max_some Plotting.rycalc _ Hw) as [mc Hmc].
    exists mo, mc.
    destruct (series_max_spec _ _ _ Hmo) as [Hmo1 Hmo2].
    destruct (series_max_spec _ _ _ Hmc) as [Hmc1 Hmc2].
    split; [|split; [|split; assumption]].
    + unfold Plotting.plot_refinement_single_panel.
      destruct (hkl_block (Some (lo, hi))) as [[e|yl]|] eqn:Eh.
      * exfalso. exact (Hhkl e eq_refl).
      * rewrite Hmo, Hmc. reflexivity.
      * rewrite Hmo, Hmc. reflexivity.
    + intros r Hr. split; [now apply Hmo1 | now apply Hmc1].
  - intros hkl_block rows ps Hplot.
    unfold Plotting.plot_refinement_multi_panel in Hplot.
    destruct (Plotting.multi_panel_regions rows) as [e|[xs ts]] eqn:Hr;
      [discriminate|].
    exists xs, ts. split; [reflexivity|].
    exact (multi_panel_map_limits hkl_block xs ts ps
             (multi_panel_regions_length rows xs ts Hr) Hplot).
Qed.

Lemma single_panel_zoom_rescales_witness :
  (Plotting.window 15 25 [((10, 1, 1) : Plotting.row); (20, 5, 2); (30, 4, 4)]%Q <> [] /\
   exists mo mc,
     Plotting.plot_refinement_single_panel (fun _ => None)
       [((10, 1, 1) : Plotting.row); (20, 5, 2); (30, 4, 4)]%Q (Some (15, 25))%Q =
     inr {| Plotting.shared_xlim := Some (15, 25)%Q;
            Plotting.main_ylim := Some (0, Qmax mo mc * (11 # 10))%Q |}) /\
  match Plotting.plot_refinement_multi_panel (fun _ => None)
          [((10, 1, 1) : Plotting.row); (20, 5, 2); (30, 4, 4)]%Q with
  | inr ps =>
      exists xs ts,
        Plotting.multi_panel_regions
          [((10, 1, 1) : Plotting.row); (20, 5, 2); (30, 4, 4)]%Q = inr (xs, ts) /\
        Forall2 (fun p xr =>
                   Plotting.xlim (Plotting.ax_main p) = xr /\
                   Plotting.xlim (Plotting.ax_resid p) = xr /\
                   ((@None (py (option (Q * Q))) = None /\
                     Plotting.ylim (Plotting.ax_main p) = None) \/
                    @None (py (option (Q * Q))) =
                      Some (inr (Plotting.ylim (Plotting.ax_main p))))) ps xs
  | inl _ => False
  end.
Proof.
  split.
  - split; [discriminate|].
    destruct (proj1 single_panel_zoom_rescales (fun _ => None)
                [((10, 1, 1) : Plotting.row); (20, 5, 2); (30, 4, 4)]%Q 15%Q 25%Q
                ltac:(discriminate) ltac:(discriminate)) as [mo [mc [H _]]].
    exists mo, mc. exact H.
  - destruct (Plotting.plot_refinement_multi_panel (fun _ => None)
                [((10, 1, 1) : Plotting.row); (20, 5, 2); (30, 4, 4)]%Q)
      as [e|ps] eqn:E; [vm_compute in E; discriminate|].
    exact (proj2 single_panel_zoom_rescales (fun _ => None) _ ps E).
Defined.

Definition sample_rows : list Plotting.row :=
  [(10, 1, 1); (20, 5, 2); (30, 4, 4); (40, 2, 2)]%Q.

(** C7 failing input: in the multi-panel plot of [sample_rows] (no
    reflection file) the zoomed panels get angle limits but no intensity
    limits, so none of them is rescaled to 1.1 times its window's maximum. *)
Lemma multi_panel_zoom_not_rescaled :
  match Plotting.plot_refinement_multi_panel (fun _ => None) sample_rows with
  | inr ps =>
      map (fun p => Plotting.ylim (Plotting.ax_main p)) ps = [None; None; None; None] /\
      map (fun p => match Plotting.xlim (Plotting.ax_main p) with
                    | Some _ => true | None => false end) ps = [false; true; true; true]
  | inl _ => False
  end.
Proof. vm_compute. split; reflexivity. Qed.

(** ** Image loading *)

(** C9: [load_local_image] never raises, whatever the file-system probes
    do: it returns the file's bytes with the media type of its lower-cased
    extension when the path exists, is a regular file and can be read, and
    [None] when the path is missing, is not a regular file, reading fails,
    or any probe raises. *)
Theorem load_local_image_total :
  forall (exists_ is_file : string -> py bool)
         (read_bytes : string -> py (list Byte.byte)) (image_path : string),
  Utils.load_local_image exists_ is_file read_bytes image_path =
  inr (match exists_ image_path, is_file image_path, read_bytes image_path with
       | inr true, inr true, inr image_data =>
           Some {| Utils.data := image_data;
                   Utils.media_type :=
                     Utils.media_type_of (lower (Utils.path_suffix image_path)) |}
       | _, _, _ => None
       end).
Proof.
  intros exists_ is_file read_bytes image_path.
  unfold Utils.load_local_image, Utils.load_local_image_body.
  destruct (exists_ image_path) as [e|[|]]; [reflexivity| |reflexivity].
  destruct (is_file image_path) as [e|[|]]; [reflexivity| |reflexivity].
  destruct (read_bytes image_path); reflexivity.
Qed.

(** ** Conversation history *)

Definition msg (c : string) : Main.message :=
  {| Main.role := "user"; Main.content := c; Main.has_image := false;
     Main.timestamp := "2025-01-01T00:00:00" |}.

(** C10: [get_recent_messages(0)] on a history of two messages returns both
    of them, not the last zero: [messages[-0:]] is [messages[0:]].  The
    [clear] command does empty the history. *)
Theorem get_recent_messages_zero :
  Main.get_recent_messages {| Main.messages := [msg "a"; msg "b"] |} 0 =
    [msg "a"; msg "b"] /\
  Main.chat_command {| Main.messages := [msg "a"; msg "b"] |} "clear" =
    Main.Continue {| Main.messages := [] |} [].
Proof. split; reflexivity. Qed.

(** For a positive limit the slice is right: the last [min N len] messages,
    in order, and the history is a prefix followed by them. *)
Lemma get_recent_messages_pos :
  forall (h : Main.ConversationHistory) (limit : Z),
  (0 < limit)%Z ->
  exists pre, Main.messages h = (pre ++ Main.get_recent_messages h limit)%list /\
  List.length (Main.get_recent_messages h limit) =
    Nat.min (Z.to_nat limit) (List.length (Main.messages h)).
Proof.
  intros h limit Hl. unfold Main.get_recent_messages, Main.slice_start.
  destruct (Z.ltb_spec (- limit) 0) as [_|C]; [|lia].
  exists (firstn (Z.to_nat (Z.max 0 (- limit + Z.of_nat (List.length (Main.messages h)))))
                 (Main.messages h)).
  split; [symmetry; apply firstn_skipn|].
  rewrite length_skipn. lia.
Qed.

(** * Further properties of the code *)

From Stdlib Require Import Sorting.Permutation Sorting.Sorted Lqa.

(** ** OPTIMADE queries *)

Lemma elements_filter_nonempty (e : string) (es : list string) :
  exists flt, Optimade._create_optimade_elements_filter (e :: es) = inr flt.
Proof.
  unfold Optimade._create_optimade_elements_filter.
  destruct (Nat.ltb 1 (List.length (e :: es))); eexists; reflexivity.
Qed.

Lemma sanitize_formula_error (f : string) (e : py_exn) :
  Optimade._sanitize_formula f = inl e ->
  e = ValueError "invalid literal for int() with base 10".
Proof.
  unfold Optimade._sanitize_formula.
  destruct (Optimade.map_option _ _); intro H; inversion H; reflexivity.
Qed.

(** X1: [get_optimade_cifs] never raises [IndexError]: the element filter is
    only built from a non-empty element list. *)
Theorem get_optimade_cifs_no_index_error :
  forall (entry dict : Type) (as_dict : entry -> dict)
         (client_get : string -> string -> list entry)
         (elements : option (list string)) (formula query : option string)
         (database msg : string),
  Optimade.result (Optimade.get_optimade_cifs entry dict as_dict client_get
                     elements formula query database) <> inl (IndexError msg).
Proof.
  intros entry dict as_dict client_get elements formula query database msg.
  unfold Optimade.get_optimade_cifs.
  destruct (Optimade.allowed_database_endpoints database) as [endpoint|];
    [|discriminate].
  destruct (Optimade.choose_filter elements formula query database) as [e|flt] eqn:Hf.
  - simpl. intro E. injection E as ->.
    unfold Optimade.choose_filter in Hf.
    destruct (Optimade.truthy_str query); [discriminate|].
    destruct elements as [[|el els]|]; simpl in Hf.
    + destruct (Optimade.truthy_str formula); [|discriminate].
      destruct (String.eqb database "cod"); [discriminate|].
      destruct (Optimade._sanitize_formula _) eqn:Hs; [|discriminate].
      injection Hf as ->. apply sanitize_formula_error in Hs. discriminate.
    + destruct (elements_filter_nonempty el els) as [flt Hflt].
      rewrite Hflt in Hf. discriminate.
    + destruct (Optimade.truthy_str formula); [|discriminate].
      destruct (String.eqb database "cod"); [discriminate|].
      destruct (Optimade._sanitize_formula _) eqn:Hs; [|discriminate].
      injection Hf as ->. apply sanitize_formula_error in Hs. discriminate.
  - simpl. destruct (client_get endpoint flt); discriminate.
Qed.

(** X2: When [get_optimade_cifs] returns, it has issued exactly one query, for
    the endpoint of the database and the chosen filter, and returns one
    dictionary per structure of the answer, in order; the list is never
    empty. *)
Theorem get_optimade_cifs_returns :
  forall (entry dict : Type) (as_dict : entry -> dict)
         (client_get : string -> string -> list entry)
         (elements : option (list string)) (formula query : option string)
         (database : string) (l : list dict),
  Optimade.result (Optimade.get_optimade_cifs entry dict as_dict client_get
                     elements formula query database) = inr l ->
  exists endpoint flt,
    Optimade.allowed_database_endpoints database = Some endpoint /\
    Optimade.choose_filter elements formula query database = inr flt /\
    Optimade.queries (Optimade.get_optimade_cifs entry dict as_dict client_get
                        elements formula query database) = [(endpoint, flt)] /\
    l = map as_dict (client_get endpoint flt) /\ l <> [].
Proof.
  intros entry dict as_dict client_get elements formula query database l.
  unfold Optimade.get_optimade_cifs.
  destruct (Optimade.allowed_database_endpoints database) as [endpoint|];
    [|discriminate].
  destruct (Optimade.choose_filter elements formula query database) as [e|flt];
    [discriminate|].
  simpl. destruct (client_get endpoint flt) as [|x xs] eqn:Hc; [discriminate|].
  intro H. injection H as <-.
  exists endpoint, flt. rewrite Hc. repeat split; discriminate.
Qed.

Lemma get_optimade_cifs_returns_witness :
  Optimade.result (Optimade.get_optimade_cifs unit unit (fun u => u)
                     (fun _ _ => [tt]) None None (Some "nelements=2") "mp")
    = inr [tt] /\
  exists endpoint flt,
    Optimade.allowed_database_endpoints "mp" = Some endpoint /\
    Optimade.choose_filter None None (Some "nelements=2") "mp" = inr flt /\
    Optimade.queries (Optimade.get_optimade_cifs unit unit (fun u => u)
                        (fun _ _ => [tt]) None None (Some "nelements=2") "mp")
      = [(endpoint, flt)] /\
    [tt] = map (fun u : unit => u) ((fun _ _ => [tt]) endpoint flt) /\ [tt] <> [].
Proof.
  split; [reflexivity|].
  apply (get_optimade_cifs_returns unit unit (fun u => u) (fun _ _ => [tt])
           None None (Some "nelements=2") "mp" [tt]).
  reflexivity.
Defined.

(** X3: An unknown database is refused before anything else, whatever the
    other arguments, even a valid query: no query is issued and
    [RuntimeError] is raised. *)
Theorem get_optimade_cifs_unknown_database :
  forall (entry dict : Type) (as_dict : entry -> dict)
         (client_get : string -> string -> list entry)
         (elements : option (list string)) (formula query : option string)
         (database : string),
  database <> "cod" -> database <> "mp" -> database <> "oqmd" ->
  let out := Optimade.get_optimade_cifs entry dict as_dict client_get
               elements formula query database in
  Optimade.queries out = [] /\
  exists msg, Optimade.result out = inl (RuntimeError msg).
Proof.
  intros entry dict as_dict client_get elements formula query database H1 H2 H3 out.
  unfold out, Optimade.get_optimade_cifs, Optimade.allowed_database_endpoints.
  destruct (String.eqb_spec database "cod"); [contradiction|].
  destruct (String.eqb_spec database "mp"); [contradiction|].
  destruct (String.eqb_spec database "oqmd"); [contradiction|].
  split; [reflexivity | eexists; reflexivity].
Qed.

Lemma get_optimade_cifs_unknown_database_witness :
  "icsd" <> "cod" /\ "icsd" <> "mp" /\ "icsd" <> "oqmd" /\
  Optimade.queries (Optimade.get_optimade_cifs unit unit (fun u => u)
                      (fun _ _ => [tt]) None None (Some "x") "icsd") = [] /\
  exists msg, Optimade.result (Optimade.get_optimade_cifs unit unit (fun u => u)
                     (fun _ _ => [tt]) None None (Some "x") "icsd") =
    inl (RuntimeError msg).
Proof.
  split; [discriminate|]. split; [discriminate|]. split; [discriminate|].
  apply (get_optimade_cifs_unknown_database unit unit (fun u => u)
           (fun _ _ => [tt]) None None (Some "x") "icsd");
    discriminate.
Defined.

(** *** The order of [sorted] on [(str, str)] pairs *)

Lemma ascii_compare_refl (a : ascii) : Ascii.compare a a = Eq.
Proof. unfold Ascii.compare. apply N.compare_refl. Qed.

Lemma string_compare_refl (s : string) : String.compare s s = Eq.
Proof. induction s as [|c s IH]; simpl; [reflexivity|]. now rewrite ascii_compare_refl. Qed.

Lemma ascii_compare_lt_trans (a b c : ascii) :
  Ascii.compare a b = Lt -> Ascii.compare b c = Lt -> Ascii.compare a c = Lt.
Proof. unfold Ascii.compare. rewrite !N.compare_lt_iff. lia. Qed.

Lemma string_compare_lt_trans (s1 s2 s3 : string) :
  String.compare s1 s2 = Lt -> String.compare s2 s3 = Lt -> String.compare s1 s3 = Lt.
Proof.
  revert s2 s3.
  induction s1 as [|c1 s1 IH]; intros [|c2 s2] [|c3 s3]; simpl; try discriminate; auto.
  destruct (Ascii.compare c1 c2) eqn:E12; try discriminate;
  destruct (Ascii.compare c2 c3) eqn:E23; try discriminate; intros H1 H2.
  - apply Ascii.compare_eq_iff in E12, E23. subst.
    rewrite ascii_compare_refl. eauto.
  - apply Ascii.compare_eq_iff in E12. subst. now rewrite E23.
  - apply Ascii.compare_eq_iff in E23. subst. now rewrite E12.
  - now rewrite (ascii_compare_lt_trans c1 c2 c3 E12 E23).
Qed.

Lemma string_leb_spec (a b : string) :
  String.leb a b = true <-> String.compare a b = Lt \/ a = b.
Proof.
  unfold String.leb. split.
  - destruct (String.compare a b) eqn:E; try discriminate; intros _.
    + right. now apply String.compare_eq_iff.
    + now left.
  - intros [E| ->]; [now rewrite E | now rewrite string_compare_refl].
Qed.

Lemma string_leb_trans (a b c : string) :
  String.leb a b = true -> String.leb b c = true -> String.leb a c = true.
Proof.
  rewrite !string_leb_spec. intros [H1| ->] [H2| ->]; auto.
  left. eapply string_compare_lt_trans; eauto.
Qed.

Lemma pair_leb_refl (a : string * string) : pair_leb a a = true.
Proof.
  unfold pair_leb. rewrite string_compare_refl. apply string_leb_spec. now right.
Qed.

Lemma pair_leb_total (a b : string * string) :
  pair_leb a b = false -> pair_leb b a = true.
Proof.
  unfold pair_leb. rewrite (String.compare_antisym (fst b) (fst a)).
  destruct (String.compare (fst a) (fst b)) eqn:E; simpl; try discriminate; auto.
  intro H. destruct (String.leb_total (snd a) (snd b)) as [H'|H']; congruence.
Qed.

Lemma pair_leb_trans (a b c : string * string) :
  pair_leb a b = true -> pair_leb b c = true -> pair_leb a c = true.
Proof.
  unfold pair_leb.
  destruct (String.compare (fst a) (fst b)) eqn:E1; try discriminate;
  destruct (String.compare (fst b) (fst c)) eqn:E2; try discriminate; intros H1 H2.
  - apply String.compare_eq_iff in E1, E2. rewrite E1, E2, string_compare_refl.
    eapply string_leb_trans; eauto.
  - apply String.compare_eq_iff in E1. now rewrite E1, E2.
  - apply String.compare_eq_iff in E2. rewrite <- E2. now rewrite E1.
  - now rewrite (string_compare_lt_trans _ _ _ E1 E2).
Qed.

Lemma pair_leb_antisym (a b : string * string) :
  pair_leb a b = true -> pair_leb b a = true -> a = b.
Proof.
  destruct a as [a1 a2], b as [b1 b2]. unfold pair_leb; simpl.
  rewrite (String.compare_antisym b1 a1).
  destruct (String.compare a1 b1) eqn:E; simpl; try discriminate; intros H1 H2.
  apply String.compare_eq_iff in E. subst.
  now rewrite (String.leb_antisym a2 b2 H1 H2).
Qed.

Definition pair_le (a b : string * string) : Prop := pair_leb a b = true.

Lemma insert_pair_perm (x : string * string) (l : list (string * string)) :
  Permutation (x :: l) (insert_pair x l).
Proof.
  induction l as [|y l IH]; simpl; [reflexivity|].
  destruct (pair_leb x y); [reflexivity|].
  rewrite perm_swap. now apply perm_skip.
Qed.

Lemma sort_pairs_perm (l : list (string * string)) : Permutation l (sort_pairs l).
Proof.
  induction l as [|x l IH]; simpl; [reflexivity|].
  rewrite <- insert_pair_perm. now apply perm_skip.
Qed.

Lemma insert_pair_sorted (x : string * string) (l : list (string * string)) :
  StronglySorted pair_le l -> StronglySorted pair_le (insert_pair x l).
Proof.
  induction l as [|y l IH]; simpl; intro Hs.
  - repeat constructor.
  - apply StronglySorted_inv in Hs as [Hs Hy].
    destruct (pair_leb x y) eqn:Hxy.
    + constructor; [now constructor|].
      constructor; [exact Hxy|].
      eapply Forall_impl; [|exact Hy]. intros z Hz. eapply pair_leb_trans; eauto.
    + constructor; [now apply IH|].
      apply Forall_forall. intros z Hz.
      apply (Permutation_in _ (Permutation_sym (insert_pair_perm x l))) in Hz.
      destruct Hz as [<-|Hz]; [now apply pair_leb_total|].
      now apply (proj1 (Forall_forall _ _) Hy).
Qed.

Lemma sort_pairs_sorted (l : list (string * string)) :
  StronglySorted pair_le (sort_pairs l).
Proof. induction l; simpl; [constructor | now apply insert_pair_sorted]. Qed.

Lemma sorted_perm_eq (l1 l2 : list (string * string)) :
  StronglySorted pair_le l1 -> StronglySorted pair_le l2 ->
  Permutation l1 l2 -> l1 = l2.
Proof.
  revert l2. induction l1 as [|a t1 IH]; intros l2 H1 H2 Hp.
  - symmetry. now apply Permutation_nil.
  - destruct l2 as [|b t2]; [now apply Permutation_sym, Permutation_nil_cons in Hp|].
    apply StronglySorted_inv in H1 as [H1 Ha], H2 as [H2 Hb].
    assert (Hab : a = b).
    { assert (Ia : In a (b :: t2)) by (eapply Permutation_in; eauto; now left).
      assert (Ib : In b (a :: t1))
        by (eapply Permutation_in; [apply Permutation_sym; eauto | now left]).
      destruct Ia as [Ia|Ia]; [now symmetry|].
      destruct Ib as [Ib|Ib]; [exact Ib|].
      apply pair_leb_antisym.
      - exact (proj1 (Forall_forall _ _) Ha b Ib).
      - exact (proj1 (Forall_forall _ _) Hb a Ia). }
    subst b. f_equal. apply IH; auto. eapply Permutation_cons_inv; eauto.
Qed.

(** [sorted] gives the same list for any order of its input. *)
Lemma sort_pairs_perm_eq (l1 l2 : list (string * string)) :
  Permutation l1 l2 -> sort_pairs l1 = sort_pairs l2.
Proof.
  intro Hp. apply sorted_perm_eq; try apply sort_pairs_sorted.
  rewrite <- !sort_pairs_perm. exact Hp.
Qed.

Definition render_token (p : string * list ascii) : option (string * string) :=
  option_map (fun n => (fst p, n))
             (Optimade.render_count (string_of_list_ascii (snd p))).

Lemma combine_numbers (T : list (string * list ascii)) :
  match Optimade.map_option Optimade.render_count
          (map (fun p => string_of_list_ascii (snd p)) T) with
  | Some ns => Some (combine (map fst T) ns)
  | None => None
  end = Optimade.map_option render_token T.
Proof.
  induction T as [|p T IH]; simpl; [reflexivity|].
  unfold render_token at 1.
  destruct (Optimade.render_count (string_of_list_ascii (snd p))); simpl;
    [|reflexivity].
  destruct (Optimade.map_option Optimade.render_count _);
    destruct (Optimade.map_option render_token T); simpl;
    try discriminate; try reflexivity.
  now injection IH as ->.
Qed.

Lemma map_option_perm {A B} (f : A -> option B) (l1 l2 : list A) :
  Permutation l1 l2 ->
  match Optimade.map_option f l1, Optimade.map_option f l2 with
  | Some a, Some b => Permutation a b
  | None, None => True
  | _, _ => False
  end.
Proof.
  induction 1 as [|x l1 l2 _ IH|x y l|l1 l2 l3 _ IH1 _ IH2]; simpl.
  - constructor.
  - destruct (f x); destruct (Optimade.map_option f l1);
      destruct (Optimade.map_option f l2); try contradiction; auto.
  - destruct (f x), (f y), (Optimade.map_option f l); auto. apply perm_swap.
  - destruct (Optimade.map_option f l1), (Optimade.map_option f l2),
      (Optimade.map_option f l3); try contradiction; auto.
    eapply Permutation_trans; eauto.
Qed.

Lemma sanitize_formula_tokens (f : string) :
  Optimade._sanitize_formula f =
  match Optimade.map_option render_token
          (snd (Optimade.tokenize (list_ascii_of_string f))) with
  | None => inl (ValueError "invalid literal for int() with base 10")
  | Some ps => inr (String.concat "" (map (fun p => fst p ++ snd p) (sort_pairs ps)))
  end.
Proof.
  unfold Optimade._sanitize_formula, Optimade.findall_elements,
    Optimade.split_numbers.
  rewrite <- combine_numbers.
  destruct (Optimade.map_option _ _); reflexivity.
Qed.

(** X4: [_sanitize_formula] depends only on the (element, count) tokens of the
    formula, not on their order: two formulas whose tokens are
    permutations of each other give the same result, or both raise
    [ValueError]. *)
Theorem sanitize_formula_order_independent :
  forall f1 f2 : string,
  Permutation (snd (Optimade.tokenize (list_ascii_of_string f1)))
              (snd (Optimade.tokenize (list_ascii_of_string f2))) ->
  Optimade._sanitize_formula f1 = Optimade._sanitize_formula f2.
Proof.
  intros f1 f2 Hp. rewrite !sanitize_formula_tokens.
  pose proof (map_option_perm render_token _ _ Hp) as H.
  destruct (Optimade.map_option render_token _),
    (Optimade.map_option render_token _); try contradiction; auto.
  now rewrite (sort_pairs_perm_eq _ _ H).
Qed.

Lemma sanitize_formula_order_independent_witness :
  Permutation (snd (Optimade.tokenize (list_ascii_of_string "NaCl2")))
              (snd (Optimade.tokenize (list_ascii_of_string "Cl2Na"))) /\
  Optimade._sanitize_formula "NaCl2" = Optimade._sanitize_formula "Cl2Na".
Proof.
  assert (Hp : Permutation (snd (Optimade.tokenize (list_ascii_of_string "NaCl2")))
                           (snd (Optimade.tokenize (list_ascii_of_string "Cl2Na"))))
    by (vm_compute; apply perm_swap).
  split; [exact Hp|].
  apply (sanitize_formula_order_independent "NaCl2" "Cl2Na"). exact Hp.
Defined.

(** ** Writing and running TOPAS inputs *)

Lemma makedirs_frame (s s1 : FS.fs) (d : string) :
  FS.makedirs_exist_ok s d = inr s1 ->
  FS.file s1 = FS.file s /\ forall d', d' <> d -> FS.is_dir s1 d' = FS.is_dir s d'.
Proof.
  unfold FS.makedirs_exist_ok.
  destruct (FS.is_dir s d).
  - intro H. injection H as <-. split; reflexivity.
  - destruct (FS.file s d); intro H; [discriminate|]. injection H as <-.
    split; [reflexivity|]. intros d' Hd. simpl.
    destruct (String.eqb_spec d' d); [contradiction|reflexivity].
Qed.

Lemma write_text_frame (s s2 : FS.fs) (path text : string) :
  FS.write_text s path text = inr s2 ->
  FS.is_dir s2 = FS.is_dir s /\
  forall p, p <> path -> FS.file s2 p = FS.file s p.
Proof.
  unfold FS.write_text, FS.open_w.
  destruct (existsb _ _); [discriminate|].
  destruct (FS.is_dir s path); [discriminate|].
  destruct (negb _); [discriminate|].
  intro H. injection H as <-. split; [reflexivity|].
  intros p Hp. unfold FS.write, FS.set_file. cbn.
  destruct (String.eqb_spec p path); [contradiction|reflexivity].
Qed.

(** X5: [save_topas_inp] touches nothing but its own file and [run_dir]: every
    other file keeps its contents and every other directory its
    existence. *)
Theorem save_topas_inp_frame :
  forall (s : FS.fs) (filename inp_text p d : string),
  p <> PosixPath.join Topas.RUN_DIR (fst (PosixPath.splitext filename) ++ ".inp") ->
  d <> Topas.RUN_DIR ->
  FS.file (fst (Topas.save_topas_inp s filename inp_text)) p = FS.file s p /\
  FS.is_dir (fst (Topas.save_topas_inp s filename inp_text)) d = FS.is_dir s d.
Proof.
  intros s filename inp_text p d Hp Hd. unfold Topas.save_topas_inp.
  destruct (FS.makedirs_exist_ok s Topas.RUN_DIR) as [e|s1] eqn:Hm;
    [split; reflexivity|].
  destruct (makedirs_frame s s1 _ Hm) as [Hf Hdir].
  destruct (negb _); simpl.
  - rewrite Hf. split; [reflexivity | now apply Hdir].
  - destruct (FS.write_text s1 _ inp_text) as [e|s2] eqn:Hw; simpl.
    + rewrite Hf. split; [reflexivity | now apply Hdir].
    + destruct (write_text_frame _ _ _ _ Hw) as [Hd2 Hf2].
      rewrite Hd2, Hf2 by exact Hp. rewrite Hf. split; [reflexivity | now apply Hdir].
Qed.

Lemma save_topas_inp_frame_witness :
  "run_dir/b.inp" <> PosixPath.join Topas.RUN_DIR (fst (PosixPath.splitext "a.inp") ++ ".inp") /\
  "out" <> Topas.RUN_DIR /\
  FS.file (fst (Topas.save_topas_inp empty_fs "a.inp"
                  ("Out_X_Yobs_Ycalc(" ++ dq ++ "a_output.txt" ++ dq ++ ")")))
          "run_dir/b.inp" = FS.file empty_fs "run_dir/b.inp" /\
  FS.is_dir (fst (Topas.save_topas_inp empty_fs "a.inp"
                    ("Out_X_Yobs_Ycalc(" ++ dq ++ "a_output.txt" ++ dq ++ ")")))
            "out" = FS.is_dir empty_fs "out".
Proof.
  assert (H1 : "run_dir/b.inp" <> PosixPath.join Topas.RUN_DIR
                 (fst (PosixPath.splitext "a.inp") ++ ".inp"))
    by (vm_compute; discriminate).
  assert (H2 : "out" <> Topas.RUN_DIR) by discriminate.
  split; [exact H1|]. split; [exact H2|].
  exact (save_topas_inp_frame empty_fs "a.inp"
           ("Out_X_Yobs_Ycalc(" ++ dq ++ "a_output.txt" ++ dq ++ ")")
           "run_dir/b.inp" "out" H1 H2).
Defined.

(** X6: When [save_topas_inp] raises the retryable error (the content
    lacks the output macro), it has not opened the input file: every file
    keeps its contents. *)
Theorem save_topas_inp_error_writes_nothing :
  forall (s : FS.fs) (filename inp_text : string),
  is_model_retry (snd (Topas.save_topas_inp s filename inp_text)) = true ->
  forall p, FS.file (fst (Topas.save_topas_inp s filename inp_text)) p = FS.file s p.
Proof.
  intros s filename inp_text He p. revert He. unfold Topas.save_topas_inp.
  destruct (FS.makedirs_exist_ok s Topas.RUN_DIR) as [e'|s1] eqn:Hm; [reflexivity|].
  destruct (makedirs_frame s s1 _ Hm) as [Hf _].
  destruct (negb _); simpl; [now rewrite Hf|].
  unfold FS.write_text, FS.open_w.
  repeat match goal with
         | |- context [if ?b then _ else _] => destruct b
         end; simpl; intro H; discriminate H.
Qed.

Lemma save_topas_inp_error_writes_nothing_witness :
  is_model_retry (snd (Topas.save_topas_inp empty_fs "a.inp" "xdd_in")) = true /\
  FS.file (fst (Topas.save_topas_inp empty_fs "a.inp" "xdd_in")) "run_dir/a.inp" =
    FS.file empty_fs "run_dir/a.inp".
Proof.
  assert (H : is_model_retry (snd (Topas.save_topas_inp empty_fs "a.inp" "xdd_in")) = true)
    by (vm_compute; reflexivity).
  split; [exact H|].
  exact (save_topas_inp_error_writes_nothing empty_fs "a.inp" "xdd_in" H "run_dir/a.inp").
Defined.

(** X7: [run_topas_refinement] calls the plotting tool only when the
    [_output.txt] file exists: without it, the outcome is the same
    whatever the plotting tool does, and a returned result has neither a
    refinement result path nor plot results. *)
Theorem run_topas_refinement_no_output_no_plot :
  forall (subprocess_run : list string -> Z -> Topas.run_outcome)
         (isfile : string -> bool) (read_file : string -> py string)
         (path_str : string -> string) (P : Type)
         (plot1 plot2 : string -> string -> option string -> py P)
         (inp_path : string) (timeout_s : Z),
  isfile (replace inp_path ".inp" "_output.txt") = false ->
  Topas.run_topas_refinement subprocess_run isfile read_file path_str P plot1
    inp_path timeout_s =
  Topas.run_topas_refinement subprocess_run isfile read_file path_str P plot2
    inp_path timeout_s /\
  forall res,
  Topas.run_topas_refinement subprocess_run isfile read_file path_str P plot1
    inp_path timeout_s = inr res ->
  Topas.plot_results P res = None /\ Topas.refinement_result_path P res = None.
Proof.
  intros subprocess_run isfile read_file path_str P plot1 plot2 inp_path timeout_s Hno.
  unfold Topas.run_topas_refinement. rewrite Hno.
  destruct (subprocess_run _ timeout_s) as [[rc out err]| |e]; simpl.
  - destruct (Z.eqb rc 0); simpl.
    + destruct (isfile (path_str (replace inp_path ".inp" ".out"))).
      * destruct (read_file _); simpl.
        -- split; [reflexivity|]. discriminate.
        -- split; [reflexivity|]. intros res H. injection H as <-. split; reflexivity.
      * split; [reflexivity|]. intros res H. injection H as <-. split; reflexivity.
    + split; [reflexivity|]. discriminate.
  - destruct (isfile (path_str (replace inp_path ".inp" ".out"))).
    + destruct (read_file _); split; try reflexivity; discriminate.
    + split; [reflexivity|]. discriminate.
  - split; [reflexivity|]. discriminate.
Qed.

Lemma run_topas_refinement_no_output_no_plot_witness :
  (fun _ => false) (replace "a.inp" ".inp" "_output.txt") = false /\
  Topas.run_topas_refinement
    (fun _ _ => Topas.Completed (Topas.CompletedProcess 0 "ok" ""))
    (fun _ => false) (fun _ => inr "") (fun p => p) unit (fun _ _ _ => inr tt)
    "a.inp" 60 =
  Topas.run_topas_refinement
    (fun _ _ => Topas.Completed (Topas.CompletedProcess 0 "ok" ""))
    (fun _ => false) (fun _ => inr "") (fun p => p) unit
    (fun _ _ _ => inl (OSError "no display")) "a.inp" 60 /\
  forall res,
  Topas.run_topas_refinement
    (fun _ _ => Topas.Completed (Topas.CompletedProcess 0 "ok" ""))
    (fun _ => false) (fun _ => inr "") (fun p => p) unit (fun _ _ _ => inr tt)
    "a.inp" 60 = inr res ->
  Topas.plot_results unit res = None /\ Topas.refinement_result_path unit res = None.
Proof.
  split; [reflexivity|].
  apply (run_topas_refinement_no_output_no_plot
           (fun _ _ => Topas.Completed (Topas.CompletedProcess 0 "ok" ""))
           (fun _ => false) (fun _ => inr "") (fun p => p) unit
           (fun _ _ _ => inr tt) (fun _ _ _ => inl (OSError "no display"))
           "a.inp" 60).
  reflexivity.
Defined.

(** ** The conversation history and the chat loop *)

Lemma string_app_assoc (a b c : string) : ((a ++ b) ++ c)%string = (a ++ b ++ c)%string.
Proof. induction a as [|x a IH]; simpl; [reflexivity | now rewrite IH]. Qed.

Lemma concat_snoc (sep : string) (xs : list string) (y : string) :
  String.concat sep (xs ++ [y]) =
  match xs with [] => y | _ => String.concat sep xs ++ sep ++ y end.
Proof.
  induction xs as [|x xs IH]; [reflexivity|].
  destruct xs as [|x' xs']; [reflexivity|].
  transitivity (x ++ sep ++ String.concat sep ((x' :: xs') ++ [y]))%string;
    [reflexivity|].
  rewrite IH. cbv iota beta.
  change (String.concat sep (x :: x' :: xs'))
    with (x ++ sep ++ String.concat sep (x' :: xs'))%string.
  now rewrite !string_app_assoc.
Qed.

Lemma skipn_pre {A} (pre rest : list A) (n : nat) :
  List.length pre = n -> skipn n (pre ++ rest) = rest.
Proof. intros <-. induction pre; simpl; auto. Qed.

(** X8: After [add_message], the most recent [n + 1] messages are the [n]
    most recent ones from before, followed by the new message ([n >= 1]),
    and [get_recent_messages(1)] is the new message alone. *)
Theorem get_recent_messages_after_add :
  forall (h : Main.ConversationHistory) (role content : string) (img : bool)
         (ts : string) (n : Z),
  (1 <= n)%Z ->
  let m := {| Main.role := role; Main.content := content;
              Main.has_image := img; Main.timestamp := ts |} in
  Main.get_recent_messages (Main.add_message h role content img ts) (n + 1) =
    (Main.get_recent_messages h n ++ [m])%list /\
  Main.get_recent_messages (Main.add_message h role content img ts) 1 = [m].
Proof.
  intros h role content img ts n Hn m.
  unfold Main.get_recent_messages, Main.slice_start.
  assert (Hm : Main.messages (Main.add_message h role content img ts) =
               (Main.messages h ++ [m])%list) by reflexivity.
  rewrite Hm, length_app.
  change (List.length [m]) with 1.
  set (L := List.length (Main.messages h)).
  split.
  - destruct (Z.ltb_spec (- (n + 1)) 0) as [_|C]; [|lia].
    destruct (Z.ltb_spec (- n) 0) as [_|C]; [|lia].
    replace (Z.to_nat (Z.max 0 (- (n + 1) + Z.of_nat (L + 1))))
      with (Z.to_nat (Z.max 0 (- n + Z.of_nat L))) by lia.
    rewrite skipn_app. fold L.
    replace (Z.to_nat (Z.max 0 (- n + Z.of_nat L)) - L) with 0 by lia.
    reflexivity.
  - destruct (Z.ltb_spec (Z.opp 1) 0) as [_|C]; [|lia].
    replace (Z.to_nat (Z.max 0 (Z.opp 1 + Z.of_nat (L + 1)))) with L by lia.
    rewrite skipn_app. fold L. rewrite Nat.sub_diag. unfold L. rewrite skipn_all.
    reflexivity.
Qed.

Lemma get_recent_messages_after_add_witness :
  (1 <= 2)%Z /\
  Main.get_recent_messages (Main.add_message {| Main.messages := [msg "a"; msg "b"] |}
                              "user" "c" false "2025-01-01T00:00:00") (2 + 1) =
    (Main.get_recent_messages {| Main.messages := [msg "a"; msg "b"] |} 2 ++ [msg "c"])%list /\
  Main.get_recent_messages (Main.add_message {| Main.messages := [msg "a"; msg "b"] |}
                              "user" "c" false "2025-01-01T00:00:00") 1 = [msg "c"].
Proof.
  split; [lia|].
  apply (get_recent_messages_after_add {| Main.messages := [msg "a"; msg "b"] |}
           "user" "c" false "2025-01-01T00:00:00" 2).
  lia.
Defined.

(** X9: [get_formatted_history] after [add_message]: the new message is the
    last line, [role: content] (with [ [included an image]] for an image),
    below the [n] lines that [get_formatted_history(n)] gave before
    ([n >= 1]); with [limit = 1] it is the only line. *)
Theorem get_formatted_history_after_add :
  forall (h : Main.ConversationHistory) (role content : string) (img : bool)
         (ts : string) (n : Z),
  (1 <= n)%Z ->
  let line := (role ++ ": " ++
               (if img then content ++ " [included an image]" else content))%string in
  Main.get_formatted_history (Main.add_message h role content img ts) (n + 1) =
    match Main.get_recent_messages h n with
    | [] => line
    | _ => Main.get_formatted_history h n ++ Main.nl ++ line
    end /\
  Main.get_formatted_history (Main.add_message h role content img ts) 1 = line.
Proof.
  intros h role content img ts n Hn line.
  destruct (get_recent_messages_after_add h role content img ts n Hn) as [H1 H2].
  unfold Main.get_formatted_history. rewrite H1, H2. split; [|reflexivity].
  unfold PyStr.join. rewrite map_app. cbn [map]. rewrite concat_snoc.
  destruct (Main.get_recent_messages h n); reflexivity.
Qed.

Lemma get_formatted_history_after_add_witness :
  (1 <= 4)%Z /\
  Main.get_formatted_history (Main.add_message {| Main.messages := [msg "a"] |}
                                "user" "b" true "2025-01-01T00:00:00") (4 + 1) =
    match Main.get_recent_messages {| Main.messages := [msg "a"] |} 4 with
    | [] => ("user" ++ ": " ++ ("b" ++ " [included an image]"))%string
    | _ => Main.get_formatted_history {| Main.messages := [msg "a"] |} 4 ++ Main.nl ++
           ("user" ++ ": " ++ ("b" ++ " [included an image]"))
    end /\
  Main.get_formatted_history (Main.add_message {| Main.messages := [msg "a"] |}
                                "user" "b" true "2025-01-01T00:00:00") 1 =
    ("user" ++ ": " ++ ("b" ++ " [included an image]"))%string.
Proof.
  split; [lia|].
  apply (get_formatted_history_after_add {| Main.messages := [msg "a"] |}
           "user" "b" true "2025-01-01T00:00:00" 4).
  lia.
Defined.

(** X10: [chat_loop] hands an input line to the agent only when, stripped of
    surrounding whitespace, it is non-empty and none of the commands
    [quit], [exit], [bye], [history], [clear] in any letter case; it then
    passes on the stripped text and leaves the history as it is. *)
Theorem chat_command_dispatch :
  forall (h h' : Main.ConversationHistory) (line user_input : string),
  Main.chat_command h line = Main.Dispatch h' user_input ->
  h' = h /\ user_input = Main.strip_str line /\ user_input <> "" /\
  ~ In (lower user_input) ["quit"; "exit"; "bye"; "history"; "clear"].
Proof.
  intros h h' line user_input. unfold Main.chat_command, Main.strip_str.
  set (u := string_of_list_ascii (strip (list_ascii_of_string line))).
  destruct (String.eqb_spec (lower u) "quit"); [discriminate|].
  destruct (String.eqb_spec (lower u) "exit"); [discriminate|].
  destruct (String.eqb_spec (lower u) "bye"); [discriminate|].
  destruct (String.eqb_spec (lower u) "history"); [discriminate|].
  destruct (String.eqb_spec (lower u) "clear"); [discriminate|].
  destruct (String.eqb_spec u ""); [discriminate|].
  intro H. injection H as <- <-.
  split; [reflexivity|]. split; [reflexivity|]. split; [assumption|].
  simpl. intuition.
Qed.

Lemma chat_command_dispatch_witness :
  Main.chat_command {| Main.messages := [] |} "  Hello " =
    Main.Dispatch {| Main.messages := [] |} "Hello" /\
  ({| Main.messages := [] |} = {| Main.messages := [] |} /\
   "Hello" = Main.strip_str "  Hello " /\ "Hello" <> "" /\
   ~ In (lower "Hello") ["quit"; "exit"; "bye"; "history"; "clear"]).
Proof.
  assert (H : Main.chat_command {| Main.messages := [] |} "  Hello " =
              Main.Dispatch {| Main.messages := [] |} "Hello") by reflexivity.
  split; [exact H|].
  exact (chat_command_dispatch _ _ _ _ H).
Defined.



(** X12: An input with an image (an image URL, or a local image path that
    loads) goes to the agent as two parts, a non-empty text and then the
    image, without the conversation history: whatever the history, the
    agent gets the same message and the turn the same outcome. *)
Theorem chat_turn_image_message :
  forall (exists_ is_file : string -> py bool)
         (read_bytes : string -> py (list Byte.byte))
         (agent_run : Main.agent_message -> py string)
         (user_input : string) (parts : list Main.part),
  Main.message_parts_of exists_ is_file read_bytes user_input = inr (true, parts) ->
  (exists t img, parts = [Main.TextPart t; img] /\ t <> "" /\
     ((exists url, img = Main.ImageUrl url) \/ (exists b, img = Main.Binary b))) /\
  forall h ts_user ts_assistant,
  snd (Main.chat_turn exists_ is_file read_bytes agent_run h user_input
         ts_user ts_assistant) = agent_run (Main.Parts parts).
Proof.
  intros exists_ is_file read_bytes agent_run user_input parts Hp.
  assert (Hd : forall t, Main.text_or_default t <> "").
  { intros t. unfold Main.text_or_default.
    destruct (String.eqb_spec t ""); [discriminate | assumption]. }
  split.
  - revert Hp. unfold Main.message_parts_of.
    destruct (Main.is_image_url user_input).
    + destruct (Main.extract_image_url user_input) as [t url].
      intro H. injection H as <-. do 2 eexists. split; [reflexivity|].
      split; [apply Hd | left; eauto].
    + destruct (Main.is_local_image_path user_input); [|discriminate].
      destruct (Main.extract_local_image_path user_input) as [t p].
      destruct (Utils.load_local_image exists_ is_file read_bytes p) as [e|[c|]];
        intro H; try discriminate.
      injection H as <-. do 2 eexists. split; [reflexivity|].
      split; [apply Hd | right; eauto].
  - intros h ts_user ts_assistant. unfold Main.chat_turn. rewrite Hp.
    destruct (agent_run (Main.Parts parts)); reflexivity.
Qed.

Lemma chat_turn_image_message_witness :
  Main.message_parts_of (fun _ => inr false) (fun _ => inr false) (fun _ => inr [])
    "Describe https://ex.org/a.png"
    = inr (true, [Main.TextPart "Describe"; Main.ImageUrl "https://ex.org/a.png"]) /\
  (exists t img,
     [Main.TextPart "Describe"; Main.ImageUrl "https://ex.org/a.png"] =
       [Main.TextPart t; img] /\ t <> "" /\
     ((exists url, img = Main.ImageUrl url) \/ (exists b, img = Main.Binary b))) /\
  forall h ts_user ts_assistant,
  snd (Main.chat_turn (fun _ => inr false) (fun _ => inr false) (fun _ => inr [])
         (fun _ => inr "A plot.") h "Describe https://ex.org/a.png"
         ts_user ts_assistant) =
    (fun _ : Main.agent_message => inr "A plot." : py string)
      (Main.Parts [Main.TextPart "Describe"; Main.ImageUrl "https://ex.org/a.png"]).
Proof.
  assert (H : Main.message_parts_of (fun _ => inr false) (fun _ => inr false)
                (fun _ => inr []) "Describe https://ex.org/a.png"
              = inr (true, [Main.TextPart "Describe";
                            Main.ImageUrl "https://ex.org/a.png"]))
    by (vm_compute; reflexivity).
  split; [exact H|].
  exact (chat_turn_image_message (fun _ => inr false) (fun _ => inr false)
           (fun _ => inr []) (fun _ => inr "A plot.") _ _ H).
Defined.

(** *** The image-reference patterns *)

Lemma space_lower (c : ascii) : is_space c = true -> lower_char c = c.
Proof.
  destruct c as [[] [] [] [] [] [] [] []]; vm_compute;
    intro H; first [reflexivity | discriminate].
Qed.

Definition nonspace (l : list ascii) : bool := forallb (fun c => negb (is_space c)) l.

Lemma nonspace_app (a b : list ascii) : nonspace (a ++ b) = nonspace a && nonspace b.
Proof. apply forallb_app. Qed.

(** A literal without whitespace matches only non-space characters. *)
Lemma ci_prefix_split (p l : list ascii) :
  nonspace p = true -> Main.ci_prefix p l = true ->
  exists pre rest, l = (pre ++ rest)%list /\ List.length pre = List.length p /\
                   nonspace pre = true.
Proof.
  revert l. induction p as [|c p IH]; intros l Hp H.
  - exists [], l. auto.
  - destruct l as [|d l]; [discriminate|].
    simpl in Hp, H. apply andb_prop in Hp as [Hc Hp].
    apply andb_prop in H as [Hcd H].
    destruct (IH l Hp H) as [pre [rest [E [Hlen Hns]]]].
    exists (d :: pre), rest. subst l. split; [reflexivity|]. split; [simpl; lia|].
    simpl. rewrite Hns, andb_true_r.
    destruct (is_space d) eqn:Hd; [|reflexivity].
    pose proof (space_lower d Hd) as Hl. rewrite Hl in Hcd.
    apply Ascii.eqb_eq in Hcd. subst c. rewrite Hd in Hc. discriminate.
Qed.

Lemma backtrack_sound (l : list ascii) (K m : nat) :
  Main.backtrack l K = Some m ->
  exists k e, 1 <= k <= K /\ Main.dot_ext (skipn k l) = Some e.
Proof.
  induction K as [|K IH]; cbn [Main.backtrack]; [discriminate|].
  destruct (Main.dot_ext (skipn (S K) l)) as [e|] eqn:E.
  - intros _. exists (S K), e. split; [lia | exact E].
  - intro H. destruct (IH H) as [k [e [Hk He]]]. exists k, e. split; [lia | exact He].
Qed.

Lemma backtrack_complete (l : list ascii) (K k e : nat) :
  1 <= k <= K -> Main.dot_ext (skipn k l) = Some e ->
  exists m, Main.backtrack l K = Some m.
Proof.
  induction K as [|K IH]; intros Hk He; [lia|]. cbn [Main.backtrack].
  destruct (Main.dot_ext (skipn (S K) l)) as [e'|] eqn:E; [eauto|].
  destruct (Nat.eq_dec k (S K)) as [->|Hne]; [congruence|].
  apply IH; [lia | exact He].
Qed.

Lemma nonspace_len_app (pre rest : list ascii) :
  nonspace pre = true ->
  Main.nonspace_len (pre ++ rest) = List.length pre + Main.nonspace_len rest.
Proof.
  induction pre as [|c pre IH]; simpl; [reflexivity|].
  intro H. apply andb_prop in H as [Hc H].
  destruct (is_space c); [discriminate|]. now rewrite IH.
Qed.

(** Non-space characters in front of a match of [[^\s]+\.(ext)] extend
    it. *)
Lemma run_ext_extend (pre rest : list ascii) (m : nat) :
  nonspace pre = true -> Main.run_ext rest = Some m ->
  exists m', Main.run_ext (pre ++ rest) = Some m'.
Proof.
  intros Hpre H. unfold Main.run_ext in *.
  destruct (backtrack_sound _ _ _ H) as [k [e [Hk He]]].
  rewrite nonspace_len_app by exact Hpre.
  apply (backtrack_complete _ _ (List.length pre + k) e); [lia|].
  rewrite skipn_app, skipn_all2 by lia.
  replace (List.length pre + k - List.length pre) with k by lia. exact He.
Qed.

Lemma after_scheme_split (l : list ascii) (n : nat) :
  Main.after_scheme l = Some n ->
  exists pre rest m, l = (pre ++ rest)%list /\ nonspace pre = true /\
                     Main.run_ext rest = Some m.
Proof.
  unfold Main.after_scheme.
  destruct (Main.ci_prefix (Main.lit "://") l) eqn:Hc; [|discriminate].
  destruct (ci_prefix_split (Main.lit "://") l eq_refl Hc) as [pre [rest [E [Hlen Hns]]]].
  rewrite E, (skipn_pre pre rest 3 Hlen).
  destruct (Main.run_ext rest) as [m|] eqn:Hr; [|discriminate].
  intros _. exists pre, rest, m. auto.
Qed.

(** A match of the URL pattern at the start of [l] is non-space text in
    front of a match of [[^\s]+\.(ext)]. *)
Lemma url_at_split (l : list ascii) (n : nat) :
  Main.url_at l = Some n ->
  exists pre rest m, l = (pre ++ rest)%list /\ nonspace pre = true /\
                     Main.run_ext rest = Some m.
Proof.
  unfold Main.url_at.
  destruct (Main.ci_prefix (Main.lit "http") l) eqn:Hc; [|discriminate].
  destruct (ci_prefix_split (Main.lit "http") l eq_refl Hc) as [p1 [r [E [Hlen Hns1]]]].
  rewrite E, (skipn_pre p1 r 4 Hlen).
  destruct (Main.ci_prefix (Main.lit "s") r) eqn:Hs.
  - destruct (Main.after_scheme (skipn 1 r)) as [k|] eqn:Ha; simpl.
    + intros _.
      destruct (ci_prefix_split (Main.lit "s") r eq_refl Hs) as [p2 [r2 [E2 [Hlen2 Hns2]]]].
      rewrite E2, (skipn_pre p2 r2 1 Hlen2) in Ha.
      destruct (after_scheme_split _ _ Ha) as [p3 [r3 [m [E3 [Hns3 Hr]]]]].
      exists (p1 ++ p2 ++ p3)%list, r3, m. rewrite E2, E3.
      split; [now rewrite <- !app_assoc|].
      rewrite !nonspace_app, Hns1, Hns2, Hns3. auto.
    + destruct (Main.after_scheme r) as [k|] eqn:Ha'; [|discriminate]. intros _.
      destruct (after_scheme_split _ _ Ha') as [p3 [r3 [m [E3 [Hns3 Hr]]]]].
      exists (p1 ++ p3)%list, r3, m. rewrite E3.
      split; [now rewrite <- app_assoc|].
      rewrite nonspace_app, Hns1, Hns3. auto.
  - destruct (Main.after_scheme r) as [k|] eqn:Ha'; [|discriminate]. intros _.
    destruct (after_scheme_split _ _ Ha') as [p3 [r3 [m [E3 [Hns3 Hr]]]]].
    exists (p1 ++ p3)%list, r3, m. rewrite E3.
    split; [now rewrite <- app_assoc|].
    rewrite nonspace_app, Hns1, Hns3. auto.
Qed.

Lemma search_spec {A} (f : list ascii -> option A) (l : list ascii) (i j : nat) (a : A) :
  Main.search f l i = Some (j, a) -> i <= j /\ f (skipn (j - i) l) = Some a.
Proof.
  revert i. induction l as [|c l IH]; intro i; simpl.
  - destruct (f []) eqn:E; [|discriminate]. intro H. injection H as <- <-.
    rewrite Nat.sub_diag. auto.
  - destruct (f (c :: l)) eqn:E.
    + intro H. injection H as <- <-. rewrite Nat.sub_diag. auto.
    + intro H. destruct (IH (S i) H) as [Hij Hf]. split; [lia|].
      replace (j - i) with (S (j - S i)) by lia. exact Hf.
Qed.

Lemma search_complete {A} (f : list ascii -> option A) (l : list ascii) (k i : nat) (a : A) :
  f (skipn k l) = Some a -> exists r, Main.search f l i = Some r.
Proof.
  revert k i. induction l as [|c l IH]; intros k i Hf; simpl.
  - rewrite skipn_nil in Hf. rewrite Hf. eauto.
  - destruct (f (c :: l)) eqn:E; [eauto|].
    destruct k as [|k]; [simpl in Hf; congruence|].
    exact (IH k (S i) Hf).
Qed.

(** X13: Every text in which [is_image_url] finds an image URL is also one in
    which [is_local_image_path] finds a local image path: the URL pattern
    is a special case of the path pattern, so the chat loop must test for
    URLs first, as it does. *)
Theorem image_url_is_local_path :
  forall text : string,
  Main.is_image_url text = true -> Main.is_local_image_path text = true.
Proof.
  intros text. unfold Main.is_image_url, Main.is_local_image_path.
  destruct (Main.search Main.url_at (list_ascii_of_string text) 0) as [[j n]|] eqn:Hs;
    [|discriminate]. intros _.
  apply search_spec in Hs as [_ Hu].
  destruct (url_at_split _ _ Hu) as [pre [rest [m [E [Hns Hr]]]]].
  destruct (run_ext_extend pre rest m Hns Hr) as [m' Hm'].
  rewrite <- E in Hm'.
  assert (Hl : exists a, Main.local_at (skipn (j - 0) (list_ascii_of_string text)) = Some a).
  { unfold Main.local_at.
    destruct (Main.ci_prefix (Main.lit "file://") _).
    - destruct (Main.run_ext (skipn 7 _)); cbn [option_map];
        [eexists; reflexivity|].
      rewrite Hm'. eexists. reflexivity.
    - rewrite Hm'. eexists. reflexivity. }
  destruct Hl as [a Ha].
  destruct (search_complete _ _ _ 0 _ Ha) as [r Hr']. now rewrite Hr'.
Qed.

Lemma image_url_is_local_path_witness :
  Main.is_image_url "look at https://ex.org/a.PNG please" = true /\
  Main.is_local_image_path "look at https://ex.org/a.PNG please" = true.
Proof.
  assert (H : Main.is_image_url "look at https://ex.org/a.PNG please" = true)
    by (vm_compute; reflexivity).
  split; [exact H|]. exact (image_url_is_local_path _ H).
Defined.

Lemma prefix_app (a b : list ascii) :
  prefix (string_of_list_ascii a) (string_of_list_ascii (a ++ b)) = true.
Proof.
  induction a as [|c a IH]; simpl; [destruct (string_of_list_ascii b); reflexivity|].
  destruct (Ascii.ascii_dec c c); [exact IH | contradiction].
Qed.

Lemma contains_app (needle : string) (pre l : list ascii) :
  prefix needle (string_of_list_ascii l) = true ->
  contains needle (string_of_list_ascii (pre ++ l)) = true.
Proof.
  induction pre as [|c pre IH]; simpl; intro H.
  - destruct l; simpl in *; rewrite H; reflexivity.
  - rewrite IH by exact H. apply orb_true_r.
Qed.

(** X14: [extract_image_url] agrees with [is_image_url]: without an image URL
    it returns the text unchanged and an empty URL; with one, the URL it
    returns is a non-empty piece of the text. *)
Theorem extract_image_url_spec :
  forall text : string,
  (Main.is_image_url text = false -> Main.extract_image_url text = (text, "")) /\
  (Main.is_image_url text = true ->
     snd (Main.extract_image_url text) <> "" /\
     contains (snd (Main.extract_image_url text)) text = true).
Proof.
  intros text. unfold Main.is_image_url, Main.extract_image_url.
  destruct (Main.search Main.url_at (list_ascii_of_string text) 0) as [[j n]|] eqn:Hs.
  - split; [discriminate|]. intros _. simpl.
    apply search_spec in Hs as [_ Hu]. rewrite Nat.sub_0_r in Hu.
    set (l := list_ascii_of_string text) in *.
    assert (Hn : 4 <= n /\ 4 <= List.length (skipn j l)).
    { revert Hu. unfold Main.url_at.
      destruct (Main.ci_prefix (Main.lit "http") (skipn j l)) eqn:Hc; [|discriminate].
      destruct (ci_prefix_split (Main.lit "http") (skipn j l) eq_refl Hc) as [p1 [r [E [Hlen _]]]].
      rewrite E, length_app, Hlen.
      destruct (if Main.ci_prefix (Main.lit "s") _ then _ else None);
        [intro H; injection H as <-; simpl; lia|].
      destruct (Main.after_scheme _); [|discriminate].
      intro H; injection H as <-; simpl; lia. }
    split.
    + unfold Main.sub. destruct (skipn j l) as [|c t] eqn:E; [simpl in Hn; lia|].
      destruct n as [|n]; [lia|]. simpl. discriminate.
    + assert (Et : text = string_of_list_ascii l)
        by (unfold l; symmetry; apply string_of_list_ascii_of_string).
      clearbody l. rewrite Et. unfold Main.sub.
      rewrite <- (firstn_skipn j l) at 2.
      apply contains_app.
      rewrite <- (firstn_skipn n (skipn j l)) at 2.
      apply prefix_app.
  - split; [reflexivity | discriminate].
Qed.

Lemma extract_image_url_spec_witness :
  (Main.is_image_url "no image" = false ->
   Main.extract_image_url "no image" = ("no image", "")) /\
  (Main.is_image_url "see http://a.b/c.gif" = true /\
   snd (Main.extract_image_url "see http://a.b/c.gif") <> "" /\
   contains (snd (Main.extract_image_url "see http://a.b/c.gif"))
            "see http://a.b/c.gif" = true).
Proof.
  split; [exact (proj1 (extract_image_url_spec "no image"))|].
  assert (H : Main.is_image_url "see http://a.b/c.gif" = true)
    by (vm_compute; reflexivity).
  split; [exact H|]. exact (proj2 (extract_image_url_spec _) H).
Defined.

(** ** Reflection ticks and labels *)
Section TickFacts.
Import Plotting.
Open Scope Q_scope.

Definition in_window (x_min x_max tt : Q) : bool := Qle_bool x_min tt && Qle_bool tt x_max.

Definition shifted_x (dx tt : Q) (last_label_x : option Q) : Q :=
  match last_label_x with
  | Some last => if Qltb (tt - last) dx then last + dx else tt
  | None => tt
  end.

Lemma shifted_x_ge_tt (dx tt : Q) (last : option Q) : tt <= shifted_x dx tt last.
Proof.
  destruct last as [a|]; simpl; [|apply Qle_refl].
  unfold Qltb. destruct (Qle_bool dx (tt - a)) eqn:E; simpl; [apply Qle_refl|].
  assert (H : ~ dx <= tt - a) by (rewrite <- Qle_bool_iff; congruence). lra.
Qed.

Lemma hkl_loop_x (rows : list row) (ymin ymax x_min x_max : Q) (refls : list reflection) :
  forall last mly ts ls m,
  hkl_loop rows ymin ymax x_min x_max refls last mly = inr (ts, ls, m) ->
  map tick_x ts = filter (in_window x_min x_max) (map two_theta refls) /\
  Forall2 (fun t l => tick_x t <= label_x l) ts ls.
Proof.
  induction refls as [|rf rest IH]; intros last mly ts ls m H; simpl in H.
  - injection H as <- <- <-. split; [reflexivity | constructor].
  - simpl. unfold in_window at 1.
    destruct (Qle_bool x_min (two_theta rf) && Qle_bool (two_theta rf) x_max) eqn:W.
    + destruct (idxmin _ rows) as [idx|]; [|discriminate].
      match type of H with
      | match ?c with _ => _ end = _ => destruct c as [e|[[ts' ls'] m']] eqn:R
      end; [discriminate|].
      injection H as <- <- <-.
      destruct (IH _ _ _ _ _ R) as [H1 H2].
      simpl. rewrite H1. split; [reflexivity|].
      constructor; [|exact H2]. simpl.
      exact (shifted_x_ge_tt (min_label_dx x_min x_max) (two_theta rf) last).
    + exact (IH _ _ _ _ _ H).
Qed.

(** X15: The reflection ticks drawn are those of the reflections whose 2θ
    lies in the window [x_min <= tt <= x_max], in the order of the table,
    and each carries one label, never to the left of its tick. *)
Theorem hkl_ticks_in_window :
  forall (rows : list row) (ymin ymax x_min x_max : Q)
         (refls : list reflection) ts ls m,
  hkl_ticks rows ymin ymax x_min x_max refls = inr (ts, ls, m) ->
  map tick_x ts = filter (in_window x_min x_max) (map two_theta refls) /\
  Forall2 (fun t l => tick_x t <= label_x l) ts ls.
Proof.
  intros rows ymin ymax x_min x_max refls ts ls m H.
  exact (hkl_loop_x _ _ _ _ _ _ _ _ _ _ _ H).
Qed.

Lemma hkl_loop_max (rows : list row) (ymin ymax x_min x_max : Q) (refls : list reflection) :
  forall last mly ts ls m,
  hkl_loop rows ymin ymax x_min x_max refls last mly = inr (ts, ls, m) ->
  (forall b, mly = Some b -> exists a, m = Some a /\ b <= a) /\
  (forall l, In l ls -> exists a, m = Some a /\ label_y l <= a) /\
  (forall a, m = Some a -> mly = Some a \/ exists l, In l ls /\ label_y l = a) /\
  (m = None -> mly = None /\ ls = []).
Proof.
  induction refls as [|rf rest IH]; intros last mly ts ls m H; simpl in H.
  - injection H as <- <- <-. split; [|split; [|split]].
    + intros b ->. exists b. split; [reflexivity | apply Qle_refl].
    + intros l [].
    + intros a ->. now left.
    + intros ->. auto.
  - destruct (Qle_bool x_min (two_theta rf) && Qle_bool (two_theta rf) x_max).
    + destruct (idxmin _ rows) as [idx|]; [|discriminate].
      match type of H with
      | match ?c with _ => _ end = _ => destruct c as [e|[[ts' ls'] m']] eqn:R
      end; [discriminate|].
      injection H as <- <- <-.
      destruct (IH _ _ _ _ _ R) as [H1 [H2 [H3 H4]]].
      set (ly := Qmax (ryobs (nth idx rows (0, 0, 0))) (rycalc (nth idx rows (0, 0, 0)))
                 + (5 # 100) * (ymax - ymin)) in *.
      assert (Hly : exists a, m' = Some a /\ ly <= a /\
                    forall b, mly = Some b -> b <= a).
      { destruct mly as [b|].
        - unfold Qltb in H1. destruct (Qle_bool ly b) eqn:E; simpl in H1.
          + destruct (H1 b eq_refl) as [a [Ha Hba]]. exists a.
            apply Qle_bool_iff in E. split; [exact Ha|]. split; [lra|].
            intros b' [= <-]. exact Hba.
          + destruct (H1 ly eq_refl) as [a [Ha Hla]]. exists a.
            assert (Hn : ~ ly <= b) by (rewrite <- Qle_bool_iff; congruence).
            split; [exact Ha|]. split; [exact Hla|]. intros b' [= <-]. lra.
        - destruct (H1 ly eq_refl) as [a [Ha Hla]]. exists a. split; [exact Ha|].
          split; [exact Hla | discriminate]. }
      destruct Hly as [a [Ha [Hla Hb]]].
      split; [|split; [|split]].
      * intros b Eb. exists a. split; [exact Ha | now apply Hb].
      * intros l [<-|Hl]; [exists a; split; [exact Ha | exact Hla] | now apply H2].
      * intros a' Ea'. destruct (H3 a' Ea') as [Em|[l [Hl El]]].
        -- destruct mly as [b|].
           ++ unfold Qltb in Em. destruct (Qle_bool ly b); simpl in Em.
              ** left. exact Em.
              ** right. exists {| label_x := shifted_x (min_label_dx x_min x_max)
                                               (two_theta rf) last;
                                  label_y := ly; label_text := hkl_text rf |}.
                 split; [now left|]. simpl. congruence.
           ++ right. exists {| label_x := shifted_x (min_label_dx x_min x_max)
                                            (two_theta rf) last;
                               label_y := ly; label_text := hkl_text rf |}.
              split; [now left|]. simpl. congruence.
        -- right. exists l. split; [now right | exact El].
      * intros Em. congruence.
    + exact (IH _ _ _ _ _ H).
Qed.

(** X17: The final [max_label_y] is the height of the highest label: [None]
    exactly when no label was drawn, otherwise a label's height that no
    label exceeds. *)
Theorem hkl_max_label_y :
  forall (rows : list row) (ymin ymax x_min x_max : Q)
         (refls : list reflection) ts ls m,
  hkl_ticks rows ymin ymax x_min x_max refls = inr (ts, ls, m) ->
  (m = None <-> ls = []) /\
  forall a, m = Some a ->
    (forall l, In l ls -> label_y l <= a) /\ (exists l, In l ls /\ label_y l = a).
Proof.
  intros rows ymin ymax x_min x_max refls ts ls m H.
  destruct (hkl_loop_max _ _ _ _ _ _ _ _ _ _ _ H) as [_ [H2 [H3 H4]]].
  split.
  - split; [intro E; now apply H4|].
    intros ->. destruct m as [a|]; [|reflexivity].
    destruct (H3 a eq_refl) as [E|[l [[] _]]]. discriminate.
  - intros a Ea. split.
    + intros l Hl. destruct (H2 l Hl) as [a' [Ea' Hle]]. congruence.
    + destruct (H3 a Ea) as [E|E]; [discriminate | exact E].
Qed.


Definition sample_refls : list reflection :=
  [{| rh := 1; rk := 0; rl := 0; two_theta := 10; inten := 1 |};
   {| rh := 1; rk := 1; rl := 0; two_theta := 101 # 10; inten := 1 # 2 |};
   {| rh := 2; rk := 0; rl := 0; two_theta := 50; inten := 1 # 4 |}].

Definition sample_hkl_rows : list row := [(10, 5, 4); (11, 2, 3); (20, 8, 9)].
End TickFacts.

Lemma hkl_ticks_in_window_witness :
  match Plotting.hkl_ticks sample_hkl_rows 0 10 10 20 sample_refls with
  | inr (ts, ls, m) =>
      map Plotting.tick_x ts =
        filter (in_window 10 20) (map Plotting.two_theta sample_refls) /\
      Forall2 (fun t l => Qle (Plotting.tick_x t) (Plotting.label_x l)) ts ls
  | inl _ => False
  end.
Proof.
  destruct (Plotting.hkl_ticks sample_hkl_rows 0 10 10 20 sample_refls)
    as [e|[[ts ls] m]] eqn:E; [vm_compute in E; discriminate|].
  exact (hkl_ticks_in_window sample_hkl_rows 0 10 10 20 sample_refls ts ls m E).
Defined.

Lemma hkl_max_label_y_witness :
  match Plotting.hkl_ticks sample_hkl_rows 0 10 10 20 sample_refls with
  | inr (ts, ls, m) =>
      (m = None <-> ls = []) /\
      forall a, m = Some a ->
        (forall l, In l ls -> Qle (Plotting.label_y l) a) /\
        (exists l, In l ls /\ Plotting.label_y l = a)
  | inl _ => False
  end.
Proof.
  destruct (Plotting.hkl_ticks sample_hkl_rows 0 10 10 20 sample_refls)
    as [e|[[ts ls] m]] eqn:E; [vm_compute in E; discriminate|].
  exact (hkl_max_label_y sample_hkl_rows 0 10 10 20 sample_refls ts ls m E).
Defined.
